(** * Time Machine checks: a shallow embedding and its properties

    The three Datadog agent checks of the repository
    ([time_machine_mount.py], [checks.d/helloworld2_timemachine_mount.py],
    [checks.d/helloworld2_timemachine_latest_backup.py]) are embedded as
    functions from the host's answers (command outputs, the file system
    test, the clock) to the ordered list of emissions sent to the agent.

    Python [str] values are lists of characters with code points up to
    U+00FF; integers are [Z]; an exception is a value of [exn]; a [try]
    body is a computation in the [result] monad. *)

From Stdlib Require Import ZArith Ascii String List Bool Lia.
From Stdlib Require Floats.SpecFloat.
Import ListNotations.
Open Scope Z_scope.

(** ** Python strings *)

Module PyStr.

Definition str := list ascii.

Definition lit (s : string) : str := list_ascii_of_string s.

Definition ord (c : ascii) : Z := Z.of_N (N_of_ascii c).

(** [str.isspace] on one character, for code points up to U+00FF. *)
Definition isspace (c : ascii) : bool :=
  let n := ord c in
  ((9 <=? n) && (n <=? 13)) || ((28 <=? n) && (n <=? 32))
  || (n =? 133) || (n =? 160).

(** [\d] of [re] on a [str] pattern: the decimal digits; below U+0100
    these are [0]..[9] only. *)
Definition isdigit (c : ascii) : bool :=
  let n := ord c in (48 <=? n) && (n <=? 57).

Fixpoint lstrip (s : str) : str :=
  match s with
  | [] => []
  | c :: s' => if isspace c then lstrip s' else s
  end.

Definition rstrip (s : str) : str := rev (lstrip (rev s)).

(** [s.strip()] *)
Definition strip (s : str) : str := rstrip (lstrip s).

(** [s.split(sep)] for a one-character separator: never an empty list,
    a trailing separator gives a trailing empty piece. *)
Fixpoint split (sep : ascii) (s : str) : list str :=
  match s with
  | [] => [[]]
  | c :: s' =>
      if Ascii.eqb c sep then [] :: split sep s'
      else match split sep s' with
           | l :: ls => (c :: l) :: ls
           | [] => [[c]]
           end
  end.

(** Line boundaries of [str.splitlines], for code points up to U+00FF:
    LF, VT, FF, CR, FS, GS, RS, NEL (and CR LF as one boundary). *)
Definition is_linebreak (c : ascii) : bool :=
  let n := ord c in
  ((10 <=? n) && (n <=? 13)) || ((28 <=? n) && (n <=? 30)) || (n =? 133).

(** [s.splitlines()]: no piece for the text after a final boundary. *)
Fixpoint splitlines (s : str) : list str :=
  match s with
  | [] => []
  | c :: s' =>
      if is_linebreak c then
        [] :: match s' with
              | c' :: s'' =>
                  if (ord c =? 13) && (ord c' =? 10) then splitlines s''
                  else splitlines s'
              | [] => []
              end
      else match splitlines s' with
           | l :: ls => (c :: l) :: ls
           | [] => [[c]]
           end
  end.

Fixpoint startswith (p s : str) : bool :=
  match p, s with
  | [], _ => true
  | _ :: _, [] => false
  | a :: p', b :: s' => Ascii.eqb a b && startswith p' s'
  end.

(** [needle in hay] *)
Fixpoint contains (needle hay : str) : bool :=
  startswith needle hay
  || match hay with
     | [] => false
     | _ :: hay' => contains needle hay'
     end.

(** [int(s)] for the texts the date parser hands over: optional blanks
    around a run of decimal digits. *)
Definition digit_val (c : ascii) : Z := ord c - 48.

Definition int_of_digits (s : str) : Z :=
  fold_left (fun acc c => 10 * acc + digit_val c) s 0.

Definition int (s : str) : Z := int_of_digits (strip s).

End PyStr.
Import PyStr.

(** ** Regular expressions, as far as the checks use them

    The patterns of the checks and of [_strptime] are sequences of
    character classes, grouped in ordered alternatives; a backtracking
    matcher lists the ways to match in priority order, and [re.match]
    takes the first. *)

Module Re.

Inductive atom : Type :=
| Digit                         (* \d *)
| Chr (c : ascii)               (* a literal character *)
| Rng (lo hi : ascii).          (* [lo-hi] *)

Definition atom_ok (a : atom) (c : ascii) : bool :=
  match a with
  | Digit => isdigit c
  | Chr x => Ascii.eqb c x
  | Rng lo hi => (ord lo <=? ord c) && (ord c <=? ord hi)
  end.

(** Match a sequence of atoms at the start of [s]: the matched text and
    the rest. *)
Fixpoint match_atoms (p : list atom) (s : str) : option (str * str) :=
  match p with
  | [] => Some ([], s)
  | a :: p' =>
      match s with
      | [] => None
      | c :: s' =>
          if atom_ok a c then
            match match_atoms p' s' with
            | Some (m, r) => Some (c :: m, r)
            | None => None
            end
          else None
      end
  end.

(** [(\d{4}-\d{2}-\d{2}-\d{6})] *)
Definition TS_PATTERN : list atom :=
  repeat Digit 4 ++ [Chr "-"] ++ repeat Digit 2 ++ [Chr "-"]
  ++ repeat Digit 2 ++ [Chr "-"] ++ repeat Digit 6.

(** [p.match(s)]: group 1 of the match at the start of [s]. *)
Definition re_match (p : list atom) (s : str) : option str :=
  match match_atoms p s with
  | Some (m, _) => Some m
  | None => None
  end.

(** [p.search(s)]: group 1 of the leftmost match. *)
Fixpoint re_search (p : list atom) (s : str) : option str :=
  match re_match p s with
  | Some m => Some m
  | None =>
      match s with
      | [] => None
      | _ :: s' => re_search p s'
      end
  end.

(** An item of a format's pattern: a literal, or a named group with its
    alternatives in the order written. *)
Inductive item : Type :=
| Literal (c : ascii)
| Group (alts : list (list atom)).

(** All the ways to match the items at the start of [s], first choice
    first: the texts of the groups and the rest of [s]. *)
Fixpoint match_items (its : list item) (s : str) : list (list str * str) :=
  match its with
  | [] => [([], s)]
  | Literal c :: its' =>
      match s with
      | c' :: s' => if Ascii.eqb c' c then match_items its' s' else []
      | [] => []
      end
  | Group alts :: its' =>
      flat_map
        (fun alt =>
           match match_atoms alt s with
           | Some (m, r) =>
               map (fun gr => (m :: fst gr, snd gr)) (match_items its' r)
           | None => []
           end)
        alts
  end.

End Re.
Import Re.

(** ** [datetime], as far as the checks use it *)

Module Datetime.

(** A naive [datetime]. *)
Record datetime : Type := mk_datetime {
  year : Z; month : Z; day : Z;
  hour : Z; minute : Z; second : Z; microsecond : Z
}.

Definition is_leap (y : Z) : bool :=
  (y mod 4 =? 0) && (negb (y mod 100 =? 0) || (y mod 400 =? 0)).

Definition days_in_month (y m : Z) : Z :=
  if m =? 2 then (if is_leap y then 29 else 28)
  else if (m =? 4) || (m =? 6) || (m =? 9) || (m =? 11) then 30
  else 31.

(** [_DAYS_BEFORE_MONTH] *)
Definition DAYS_BEFORE_MONTH (m : Z) : Z :=
  nth (Z.to_nat m) [0; 0; 31; 59; 90; 120; 151; 181; 212; 243; 273; 304; 334] 0.

Definition days_before_year (y : Z) : Z :=
  let y := y - 1 in y * 365 + y / 4 - y / 100 + y / 400.

Definition days_before_month (y m : Z) : Z :=
  DAYS_BEFORE_MONTH m + (if (2 <? m) && is_leap y then 1 else 0).

Definition ymd2ord (y m d : Z) : Z :=
  days_before_year y + days_before_month y m + d.

Definition toordinal (t : datetime) : Z :=
  ymd2ord (year t) (month t) (day t).

(** The range checks of the [date] and [datetime] constructors. *)
Definition check_date_fields (y m d : Z) : bool :=
  (1 <=? y) && (y <=? 9999) && (1 <=? m) && (m <=? 12)
  && (1 <=? d) && (d <=? days_in_month y m).

Definition check_time_fields (h mi s us : Z) : bool :=
  (0 <=? h) && (h <=? 23) && (0 <=? mi) && (mi <=? 59)
  && (0 <=? s) && (s <=? 59) && (0 <=? us) && (us <=? 999999).

Definition valid (t : datetime) : bool :=
  check_date_fields (year t) (month t) (day t)
  && check_time_fields (hour t) (minute t) (second t) (microsecond t).

(** The pattern [_strptime] builds for ["%Y-%m-%d-%H%M%S"]. *)
Definition DIRECTIVE_Y : item := Group [[Digit; Digit; Digit; Digit]].
Definition DIRECTIVE_m : item :=
  Group [[Chr "1"; Rng "0" "2"]; [Chr "0"; Rng "1" "9"]; [Rng "1" "9"]].
Definition DIRECTIVE_d : item :=
  Group [[Chr "3"; Rng "0" "1"]; [Rng "1" "2"; Digit]; [Chr "0"; Rng "1" "9"];
         [Rng "1" "9"]; [Chr " "; Rng "1" "9"]].
Definition DIRECTIVE_H : item :=
  Group [[Chr "2"; Rng "0" "3"]; [Rng "0" "1"; Digit]; [Digit]].
Definition DIRECTIVE_M : item := Group [[Rng "0" "5"; Digit]; [Digit]].
Definition DIRECTIVE_S : item :=
  Group [[Chr "6"; Rng "0" "1"]; [Rng "0" "5"; Digit]; [Digit]].

Definition FORMAT : list item :=
  [DIRECTIVE_Y; Literal "-"; DIRECTIVE_m; Literal "-"; DIRECTIVE_d; Literal "-";
   DIRECTIVE_H; DIRECTIVE_M; DIRECTIVE_S].

(** [datetime.strptime(data, "%Y-%m-%d-%H%M%S")]; [None] when it raises
    [ValueError]: the text does not match the format, text remains after
    the match, or the fields are no date or time. *)
Definition strptime (data : str) : option datetime :=
  match match_items FORMAT data with
  | [] => None
  | (groups, rest) :: _ =>
      match rest, groups with
      | [], [gY; gm; gd; gH; gM; gS] =>
          let t := mk_datetime (int gY) (int gm) (int gd)
                               (int gH) (int gM) (int gS) 0 in
          if valid t then Some t else None
      | _, _ => None
      end
  end.

(** A [timedelta], normalised by its constructor. *)
Record timedelta : Type := mk_timedelta {
  days : Z; seconds : Z; microseconds : Z
}.

Definition timedelta_new (d s us : Z) : timedelta :=
  let s1 := s + us / 1000000 in
  mk_timedelta (d + s1 / 86400) (s1 mod 86400) (us mod 1000000).

(** [a - b] on two naive datetimes. *)
Definition sub (a b : datetime) : timedelta :=
  let secs1 := second a + minute a * 60 + hour a * 3600 in
  let secs2 := second b + minute b * 60 + hour b * 3600 in
  timedelta_new (toordinal a - toordinal b) (secs1 - secs2)
                (microsecond a - microsecond b).

Definition total_microseconds (td : timedelta) : Z :=
  (days td * 86400 + seconds td) * 1000000 + microseconds td.

(** Microseconds from the start of 0001-01-01 to [t]. *)
Definition micros (t : datetime) : Z :=
  (((toordinal t - 1) * 24 + hour t) * 60 + minute t) * 60000000
  + second t * 1000000 + microsecond t.

End Datetime.
Import Datetime.

(** ** Floats, as far as the checks use them

    A finite binary64 value is [(-1)^fneg * fmant * 2^fexp]. Python's
    [a / b] on integers is the quotient rounded once, to nearest with
    ties to even; the quotients of the checks (microseconds of a
    [timedelta] by [10**6]) are zero or in the normal range, so neither
    overflow nor gradual underflow is modelled. *)

Module Float.

Record float : Type := mk_float { fneg : bool; fmant : Z; fexp : Z }.

(** [n / d] rounded to the nearest integer, ties to even ([0 <= n], [0 < d]). *)
Definition round_half_even (n d : Z) : Z :=
  let q := n / d in
  let r := n mod d in
  if 2 * r <? d then q
  else if d <? 2 * r then q + 1
  else if Z.even q then q else q + 1.

(** Numerator and denominator of [a / (b * 2^e)]. *)
Definition scaled_num (a e : Z) : Z := a * 2 ^ Z.max 0 (- e).
Definition scaled_den (b e : Z) : Z := b * 2 ^ Z.max 0 e.

(** The exponent [e] with [2^52 <= a / (b * 2^e) < 2^53] ([0 < a], [0 < b]). *)
Definition quotient_exponent (a b : Z) : Z :=
  let e0 := Z.log2 a - Z.log2 b - 52 in
  if 2 ^ 52 * scaled_den b e0 <=? scaled_num a e0 then e0 else e0 - 1.

(** [a / b] on integers, [0 < b]. *)
Definition true_divide (a b : Z) : float :=
  if a =? 0 then mk_float false 0 0
  else
    let x := Z.abs a in
    let e := quotient_exponent x b in
    mk_float (a <? 0) (round_half_even (scaled_num x e) (scaled_den b e)) e.

(** The same division in the standard library's specification of IEEE
    754 arithmetic, at the parameters of binary64; the examples below
    compare the two. *)
Definition spec_of_Z (a : Z) : SpecFloat.spec_float :=
  match a with
  | Z0 => SpecFloat.S754_zero false
  | Zpos p => SpecFloat.S754_finite false p 0
  | Zneg p => SpecFloat.S754_finite true p 0
  end.

Definition spec_true_divide (a b : Z) : SpecFloat.spec_float :=
  SpecFloat.SFdiv 53 1024 (spec_of_Z a) (spec_of_Z b).

Definition to_spec (f : float) : SpecFloat.spec_float :=
  match fmant f with
  | Zpos m => SpecFloat.S754_finite (fneg f) m (fexp f)
  | _ => SpecFloat.S754_zero (fneg f)
  end.

(** [int(f)]: truncation towards zero. *)
Definition trunc (f : float) : Z :=
  let v := if 0 <=? fexp f then fmant f * 2 ^ fexp f
           else fmant f / 2 ^ (- fexp f) in
  if fneg f then - v else v.

End Float.
Import Float.

(** [td.total_seconds()] *)
Definition total_seconds (td : timedelta) : float :=
  true_divide (total_microseconds td) 1000000.

(** ** The agent's interface and the host *)

(** An exception, with the text [str(e)] gives. *)
Inductive exn : Type :=
| CommandError (text : str)   (* raised by [subprocess.check_output] *)
| ValueError (text : str).

Definition exn_str (e : exn) : str :=
  match e with
  | CommandError t => t
  | ValueError t => t
  end.

(** A computation that returns or raises. *)
Definition result (A : Type) : Type := (exn + A)%type.

Definition ret {A} (a : A) : result A := inr a.
Definition raise {A} (e : exn) : result A := inl e.
Definition bind {A B} (c : result A) (k : A -> result B) : result B :=
  match c with
  | inl e => inl e
  | inr a => k a
  end.

Notation "x <- c ;; k" := (bind c (fun x => k))
  (at level 61, c at next level, right associativity).

(** [AgentCheck.OK] and [AgentCheck.CRITICAL]. *)
Inductive status : Type := OK | CRITICAL.

(** What a check sends: [self.gauge(name, value, tags=tags)] and
    [self.service_check(name, status, message=message, tags=tags)]. *)
Inductive emission : Type :=
| Gauge (name : str) (value : Z) (tags : list str)
| ServiceCheck (name : str) (st : status) (message : option str) (tags : list str).

Definition emission_tags (e : emission) : list str :=
  match e with
  | Gauge _ _ t => t
  | ServiceCheck _ _ _ t => t
  end.

Definition emission_name (e : emission) : str :=
  match e with
  | Gauge n _ _ => n
  | ServiceCheck n _ _ _ => n
  end.

Definition is_gauge (e : emission) : bool :=
  match e with
  | Gauge _ _ _ => true
  | ServiceCheck _ _ _ _ => false
  end.

(** The [instance] mapping of a check: the recognised options, each
    present or not. *)
Record instance : Type := mk_instance {
  opt_tags : option (list str);
  opt_volume_uuid : option str;
  opt_mountpoint : option str
}.

(** [d.get(key, default)] *)
Definition get {A} (o : option A) (default : A) : A :=
  match o with
  | Some a => a
  | None => default
  end.

(** What the host answers during one invocation. *)
Record host : Type := mk_host {
  (** [os.path.isdir] *)
  isdir : str -> bool;
  (** [subprocess.check_output(["/sbin/mount", "-p"], text=True)] *)
  mount_p : result str;
  (** [subprocess.check_output(["/usr/sbin/diskutil", "info", uuid], ...)] *)
  diskutil_info : str -> result str;
  (** [subprocess.check_output(["/usr/bin/tmutil", "latestbackup"], text=True)] *)
  tmutil_latestbackup : result str;
  (** [subprocess.check_output(["/usr/bin/tmutil", "listlocalsnapshotdates", "/"], text=True)] *)
  tmutil_listlocalsnapshotdates : result str;
  (** [datetime.now()] *)
  datetime_now : datetime;
  (** the text of the [ValueError] that [datetime.strptime] raises on a
      text it rejects (it depends on the interpreter's version) *)
  strptime_error_text : str -> str
}.

(** [datetime.strptime(data, "%Y-%m-%d-%H%M%S")] on the host. *)
Definition host_strptime (h : host) (data : str) : result datetime :=
  match strptime data with
  | Some t => ret t
  | None => raise (ValueError (strptime_error_text h data))
  end.

(** Lines 66-69 and 116-119 of the freshness check: the age in whole
    seconds, not below zero. *)
Definition age_seconds (now t : datetime) : Z :=
  let age := trunc (total_seconds (sub now t)) in
  if age <? 0 then 0 else age.

(** ** [time_machine_mount.py] *)

Module TimeMachineMountCheck.

Definition DEFAULT_MOUNTPOINT : str := lit "/Volumes/SEAGATE TIME MACHINE 5T".

Definition mountpoint_of (i : instance) : str :=
  get (opt_mountpoint i) DEFAULT_MOUNTPOINT.

Definition tags_of (i : instance) : list str :=
  get (opt_tags i) [] ++ [lit "mountpoint:" ++ mountpoint_of i].

(** The loop over the mount table: [1] at the first line that has the
    mountpoint between blanks, the line taken between blanks too. *)
Fixpoint scan_lines (mountpoint : str) (lines : list str) : Z :=
  match lines with
  | [] => 0
  | line :: rest =>
      if contains (lit " " ++ mountpoint ++ lit " ") (lit " " ++ line ++ lit " ")
      then 1
      else scan_lines mountpoint rest
  end.

Definition check (h : host) (i : instance) : list emission :=
  let mountpoint := mountpoint_of i in
  let tags := tags_of i in
  let path_exists := isdir h mountpoint in
  match (out <- mount_p h ;; ret (scan_lines mountpoint (splitlines out))) with
  | inl e =>
      [ServiceCheck (lit "timemachine.mount.check") CRITICAL (Some (exn_str e)) tags]
  | inr is_mounted =>
      let mounted := if path_exists && negb (is_mounted =? 0) then 1 else 0 in
      let status := if mounted =? 1 then OK else CRITICAL in
      let msg := if mounted =? 1 then lit "Time Machine disk is mounted"
                 else lit "Time Machine disk is NOT mounted" in
      [Gauge (lit "timemachine.disk_mounted") mounted tags;
       ServiceCheck (lit "timemachine.disk.mounted") status (Some msg) tags]
  end.

End TimeMachineMountCheck.

(** ** [checks.d/helloworld2_timemachine_mount.py] *)

Module Helloworld2TimeMachineMount.

Definition DEFAULT_VOLUME_UUID : str := lit "AC05F583-4BDF-498A-AB2D-AB5A307869EC".

Definition volume_uuid_of (i : instance) : str :=
  get (opt_volume_uuid i) DEFAULT_VOLUME_UUID.

Definition tags_of (i : instance) : list str :=
  get (opt_tags i) [] ++ [lit "volume_uuid:" ++ volume_uuid_of i].

Definition check (h : host) (i : instance) : list emission :=
  let volume_uuid := volume_uuid_of i in
  let tags := tags_of i in
  let heartbeat := Gauge (lit "helloworld2.timemachine.heartbeat") 1 tags in
  let '(query, mounted) :=
    match diskutil_info h volume_uuid with
    | inr _ => ([], 1)
    | inl e =>
        ([ServiceCheck (lit "helloworld2.timemachine.mount.check") CRITICAL
            (Some (lit "diskutil info failed for UUID " ++ volume_uuid
                   ++ lit ": " ++ exn_str e))
            tags], 0)
    end in
  let status := if mounted =? 0 then CRITICAL else OK in
  let msg := if mounted =? 0 then lit "Time Machine disk is NOT mounted"
             else lit "Time Machine disk is mounted" in
  [heartbeat] ++ query
  ++ [Gauge (lit "helloworld2.timemachine.disk_mounted") mounted tags;
      ServiceCheck (lit "helloworld2.timemachine.disk.mounted") status (Some msg) tags].

End Helloworld2TimeMachineMount.

(** ** [checks.d/helloworld2_timemachine_latest_backup.py] *)

Module Helloworld2TimeMachineLatestBackup.

Definition TM_TS_RE : list atom := TS_PATTERN.
Definition SNAPSHOT_TS_RE : list atom := TS_PATTERN.

Definition tags_of (i : instance) : list str := get (opt_tags i) [].

(** The [try] body of [_get_latest_backup_age], up to the parsed
    timestamp (lines 55-65). *)
Definition backup_dt (h : host) : result datetime :=
  out0 <- tmutil_latestbackup h ;;
  let out := strip out0 in
  match re_search TM_TS_RE out with
  | None =>
      raise (ValueError
               (lit "Could not find a Time Machine timestamp in output: " ++ out))
  | Some ts => host_strptime h ts
  end.

Definition _get_latest_backup_age (h : host) (tags : list str) (now : datetime)
  : list emission * Z :=
  match (t <- backup_dt h ;; ret (age_seconds now t)) with
  | inr age =>
      ([ServiceCheck (lit "helloworld2.timemachine.latest_backup") OK None tags],
       age)
  | inl e =>
      ([ServiceCheck (lit "helloworld2.timemachine.latest_backup") CRITICAL
          (Some (exn_str e)) tags],
       -1)
  end.

(** The condition of the comprehension of line 108:
    [SNAPSHOT_TS_RE.match(line.strip())] is not [None]. *)
Definition keeps (line : str) : bool :=
  match re_match SNAPSHOT_TS_RE (strip line) with
  | Some _ => true
  | None => false
  end.

(** The comprehension of line 108:
    [[line.strip() for line in lines if SNAPSHOT_TS_RE.match(line.strip())]]. *)
Definition select (lines : list str) : list str :=
  map strip (filter keeps lines).

(** The list [timestamps], from [out] (lines 106-108). *)
Definition timestamps_of (out : str) : list str :=
  let lines := split "010" (strip out) in
  select lines.

(** The [try] body of [_get_latest_snapshot_age], up to [latest_ts]
    (lines 97-114). *)
Definition latest_ts (h : host) : result str :=
  out0 <- tmutil_listlocalsnapshotdates h ;;
  let out := strip out0 in
  match out with
  | [] => raise (ValueError (lit "No local snapshots found"))
  | _ :: _ =>
      let timestamps := timestamps_of out in
      match timestamps with
      | [] => raise (ValueError (lit "No valid timestamps in local snapshots output"))
      | _ :: _ => ret (last timestamps [])
      end
  end.

Definition snapshot_dt (h : host) : result datetime :=
  ts <- latest_ts h ;; host_strptime h ts.

Definition _get_latest_snapshot_age (h : host) (tags : list str) (now : datetime)
  : list emission * Z :=
  match (t <- snapshot_dt h ;; ret (age_seconds now t)) with
  | inr age =>
      ([ServiceCheck (lit "helloworld2.timemachine.latest_snapshot") OK None tags],
       age)
  | inl e =>
      ([ServiceCheck (lit "helloworld2.timemachine.latest_snapshot") CRITICAL
          (Some (exn_str e)) tags],
       -1)
  end.

Definition check (h : host) (i : instance) : list emission :=
  let tags := tags_of i in
  let heartbeat :=
    Gauge (lit "helloworld2.timemachine.latest_backup_heartbeat") 1 tags in
  let now := datetime_now h in
  let '(backup_events, latest_backup_seconds) :=
    _get_latest_backup_age h tags now in
  let '(snapshot_events, latest_snapshot_seconds) :=
    _get_latest_snapshot_age h tags now in
  [heartbeat]
  ++ backup_events
  ++ [Gauge (lit "helloworld2.timemachine.latest_backup_seconds")
        latest_backup_seconds tags]
  ++ snapshot_events
  ++ [Gauge (lit "helloworld2.timemachine.latest_snapshot_seconds")
        latest_snapshot_seconds tags].

End Helloworld2TimeMachineLatestBackup.

(** ** Specifications the properties are stated with *)

(** [m] is matched, whole, by the atoms [p]. *)
Definition matches (p : list atom) (m : str) : Prop :=
  Forall2 (fun a c => atom_ok a c = true) p m.

(** A timestamp token: text of the shape [dddd-dd-dd-dddddd]. *)
Definition is_token (m : str) : Prop := matches TS_PATTERN m.

(** [mp] occurs in [line] with, on each side, the end of the line or a
    character accepted by [delim]. *)
Definition delimited_by (delim : ascii -> bool) (mp line : str) : Prop :=
  exists pre post,
    line = pre ++ mp ++ post
    /\ (pre = [] \/ exists p c, pre = p ++ [c] /\ delim c = true)
    /\ (post = [] \/ exists c q, post = c :: q /\ delim c = true).

Definition is_blank (c : ascii) : bool := Ascii.eqb c " ".

(** A line keeps its place in the snapshot list when its trimmed text
    starts with a timestamp token. *)
Definition token_prefixed (line : str) : Prop :=
  exists tok rest, strip line = tok ++ rest /\ is_token tok.

(** The ways the [try] body of [_get_latest_backup_age] raises. *)
Inductive backup_error (h : host) : exn -> Prop :=
| backup_command_failed e :
    tmutil_latestbackup h = inl e ->
    backup_error h e
| backup_no_timestamp out :
    tmutil_latestbackup h = inr out ->
    re_search TS_PATTERN (strip out) = None ->
    backup_error h
      (ValueError (lit "Could not find a Time Machine timestamp in output: "
                   ++ strip out))
| backup_parse_failed out ts :
    tmutil_latestbackup h = inr out ->
    re_search TS_PATTERN (strip out) = Some ts ->
    strptime ts = None ->
    backup_error h (ValueError (strptime_error_text h ts)).

(** The ways the [try] body of [_get_latest_snapshot_age] raises. *)
Inductive snapshot_error (h : host) : exn -> Prop :=
| snapshot_command_failed e :
    tmutil_listlocalsnapshotdates h = inl e ->
    snapshot_error h e
| snapshot_empty_output out :
    tmutil_listlocalsnapshotdates h = inr out ->
    strip out = [] ->
    snapshot_error h (ValueError (lit "No local snapshots found"))
| snapshot_no_timestamp out :
    tmutil_listlocalsnapshotdates h = inr out ->
    strip out <> [] ->
    (forall line, In line (split "010" (strip out)) ->
                  re_match TS_PATTERN (strip line) = None) ->
    snapshot_error h
      (ValueError (lit "No valid timestamps in local snapshots output"))
| snapshot_parse_failed out line :
    tmutil_listlocalsnapshotdates h = inr out ->
    strip out <> [] ->
    last (Helloworld2TimeMachineLatestBackup.timestamps_of (strip out)) [] = line ->
    Helloworld2TimeMachineLatestBackup.timestamps_of (strip out) <> [] ->
    strptime line = None ->
    snapshot_error h (ValueError (strptime_error_text h line)).

(** Seconds from [t] to [now], rounded down. *)
Definition floor_seconds (now t : datetime) : Z :=
  (micros now - micros t) / 1000000.

(** The span below which [total_seconds] keeps the microseconds apart:
    [2^34] seconds, about 544 years. *)
Definition EXACT_SPAN : Z := 2 ^ 34 * 1000000.

(** The groups of the first match, when it takes the whole text. *)
Definition whole_match (l : list (list str * str)) : option (list str) :=
  match l with
  | (g, []) :: _ => Some g
  | _ => None
  end.

Definition push (m : str) (gr : list str * str) : list str * str :=
  (m :: fst gr, snd gr).

(** An item takes at most [n] characters. *)
Definition fits (it : item) (n : nat) : Prop :=
  match it with
  | Literal _ => n = 1%nat
  | Group alts => Forall (fun alt => (length alt <= n)%nat) alts
  end.

Definition two_digits (a b : ascii) : Z := int_of_digits [a; b].

(** The number written by [len] digits of [ts] from position [start]. *)
Definition field (ts : str) (start len : nat) : Z :=
  int_of_digits (firstn len (skipn start ts)).

(** The instant a token [YYYY-MM-DD-HHMMSS] names. *)
Definition token_datetime (ts : str) : datetime :=
  mk_datetime (field ts 0 4) (field ts 5 2) (field ts 8 2)
              (field ts 11 2) (field ts 13 2) (field ts 15 2) 0.

(** How a freshness routine reports: [err] tells the errors of its [try]
    body, [parsed] is what the body parsed, [sc] and [v] are the service
    check and the gauge value sent. *)
Definition reports (err : exn -> Prop) (parsed : result datetime)
    (name : str) (tags : list str) (now : datetime)
    (sc : emission) (v : Z) : Prop :=
  (forall e, err e ->
     sc = ServiceCheck name CRITICAL (Some (exn_str e)) tags /\ v = -1)
  /\ ((forall e, ~ err e) ->
      exists t, parsed = inr t
                /\ sc = ServiceCheck name OK None tags
                /\ v = age_seconds now t /\ 0 <= v)
  /\ (v = -1 <-> exists e, err e).

(** ** Sample hosts and instances *)

Definition nl : str := ["010"%char].
Definition tab : str := ["009"%char].

(** No option set: every default applies. *)
Definition default_instance : instance := mk_instance None None None.

Definition tagged_instance : instance :=
  mk_instance (Some [lit "env:home"]) None None.

(** The outputs of the examples of the specification, read at
    2025-09-30 03:00:00.25; the disk is present but [diskutil] fails. *)
Definition sample_host : host :=
  {| isdir := fun _ => true;
     mount_p :=
       inr (lit "/dev/disk2 on /Volumes/SEAGATE TIME MACHINE 5T (apfs)" ++ nl);
     diskutil_info := fun _ =>
       inl (CommandError (lit "Command returned non-zero exit status 1."));
     tmutil_latestbackup :=
       inr (lit "/Volumes/.timemachine/ABCD/2025-09-30-012615.backup/..." ++ nl);
     tmutil_listlocalsnapshotdates :=
       inr (lit "2025-09-30-012615" ++ nl ++ lit "2025-09-30-022615" ++ nl);
     datetime_now := mk_datetime 2025 9 30 3 0 0 250000;
     strptime_error_text := fun data => lit "unconverted data remains" |}.

(** The same, with the mountpoint's directory gone. *)
Definition unplugged_host : host :=
  {| isdir := fun _ => false;
     mount_p := mount_p sample_host;
     diskutil_info := diskutil_info sample_host;
     tmutil_latestbackup := tmutil_latestbackup sample_host;
     tmutil_listlocalsnapshotdates := tmutil_listlocalsnapshotdates sample_host;
     datetime_now := datetime_now sample_host;
     strptime_error_text := strptime_error_text sample_host |}.

(** A host on which no command can be run. *)
Definition broken_host : host :=
  {| isdir := fun _ => true;
     mount_p := inl (CommandError (lit "No such file or directory: /sbin/mount"));
     diskutil_info := fun _ =>
       inl (CommandError (lit "No such file or directory: /usr/sbin/diskutil"));
     tmutil_latestbackup :=
       inl (CommandError (lit "No such file or directory: /usr/bin/tmutil"));
     tmutil_listlocalsnapshotdates :=
       inl (CommandError (lit "No such file or directory: /usr/bin/tmutil"));
     datetime_now := mk_datetime 2025 9 30 3 0 0 250000;
     strptime_error_text := fun data => lit "unconverted data remains" |}.

(** A mount table with tabs between its fields, a backup dated 1400, a
    last snapshot line with text after its token, read at
    2025-01-01 00:00:00.999999. *)
Definition odd_host : host :=
  {| isdir := fun _ => true;
     mount_p := inr (lit "/dev/disk2" ++ tab ++ lit "/mnt" ++ tab ++ lit "apfs" ++ nl);
     diskutil_info := fun _ => inr (lit "Volume Name: TM" ++ nl);
     tmutil_latestbackup :=
       inr (lit "/Volumes/.timemachine/ABCD/1400-01-01-000000.backup" ++ nl);
     tmutil_listlocalsnapshotdates :=
       inr (lit "2025-09-30-012615" ++ nl ++ lit "2025-09-30-022615.backup" ++ nl);
     datetime_now := mk_datetime 2025 1 1 0 0 0 999999;
     strptime_error_text := fun data => lit "unconverted data remains: " ++ data |}.

Definition odd_instance : instance := mk_instance None None (Some (lit "/mnt")).

(** Snapshots listed newest first, and an empty listing. *)
Definition reversed_host : host :=
  {| isdir := isdir sample_host;
     mount_p := mount_p sample_host;
     diskutil_info := diskutil_info sample_host;
     tmutil_latestbackup := tmutil_latestbackup sample_host;
     tmutil_listlocalsnapshotdates :=
       inr (lit "2025-09-30-022615" ++ nl ++ lit "2025-09-30-012615" ++ nl);
     datetime_now := datetime_now sample_host;
     strptime_error_text := strptime_error_text sample_host |}.

Definition empty_listing_host : host :=
  {| isdir := isdir sample_host;
     mount_p := mount_p sample_host;
     diskutil_info := diskutil_info sample_host;
     tmutil_latestbackup := tmutil_latestbackup sample_host;
     tmutil_listlocalsnapshotdates := inr (lit " " ++ nl);
     datetime_now := datetime_now sample_host;
     strptime_error_text := strptime_error_text sample_host |}.

(** ** Texts and hosts of the further properties *)

Definition crlf : str := ["013"%char; "010"%char].

(** Lines written one after the other, each followed by [eol]. *)
Definition unlines (eol : str) (ls : list str) : str :=
  flat_map (fun l => l ++ eol) ls.

Definition blank (s : str) : Prop := Forall (fun c => isspace c = true) s.

Definition no_linebreak (l : str) : Prop :=
  Forall (fun c => is_linebreak c = false) l.

(** The sample host with blanks around the outputs of [tmutil]. *)
Definition padded_host : host :=
  {| isdir := isdir sample_host;
     mount_p := mount_p sample_host;
     diskutil_info := diskutil_info sample_host;
     tmutil_latestbackup :=
       inr (nl ++ lit "  "
            ++ lit "/Volumes/.timemachine/ABCD/2025-09-30-012615.backup/..." ++ nl
            ++ tab ++ nl);
     tmutil_listlocalsnapshotdates :=
       inr (lit " " ++ nl
            ++ lit "2025-09-30-012615" ++ nl ++ lit "2025-09-30-022615" ++ nl
            ++ nl ++ lit "  ");
     datetime_now := datetime_now sample_host;
     strptime_error_text := strptime_error_text sample_host |}.

(** Outputs that name no timestamp; the mount table has CR LF line ends. *)
Definition headers_only_host : host :=
  {| isdir := fun _ => true;
     mount_p :=
       inr (unlines crlf
              [lit "/dev/disk1s1 on / (apfs)";
               lit "/dev/disk2 on /Volumes/SEAGATE TIME MACHINE 5T (apfs)"]);
     diskutil_info := diskutil_info sample_host;
     tmutil_latestbackup := inr (lit "No backups found for host." ++ nl);
     tmutil_listlocalsnapshotdates :=
       inr (lit "Snapshot dates for disk /:" ++ nl ++ lit "(none)" ++ nl);
     datetime_now := datetime_now sample_host;
     strptime_error_text := strptime_error_text sample_host |}.

(** A mountpoint that ends with a line feed. *)
Definition broken_line_instance : instance :=
  mk_instance None None (Some (lit "/Volumes/SEAGATE TIME MACHINE 5T" ++ nl)).

(** ** Facts about strings *)

Lemma lstrip_cons_space c s : isspace c = true -> lstrip (c :: s) = lstrip s.
Proof. intros H. simpl. now rewrite H. Qed.

Lemma rstrip_snoc_space c s : isspace c = true -> rstrip (s ++ [c]) = rstrip s.
Proof.
  intros H. unfold rstrip. rewrite rev_app_distr. simpl. now rewrite H.
Qed.

Lemma rstrip_snoc_other c s : isspace c = false -> rstrip (s ++ [c]) = s ++ [c].
Proof.
  intros H. unfold rstrip. rewrite rev_app_distr. simpl. rewrite H.
  simpl. now rewrite rev_involutive.
Qed.

Lemma lstrip_snoc_space c s :
  isspace c = true ->
  lstrip (s ++ [c]) = match lstrip s with [] => [] | _ :: _ => lstrip s ++ [c] end.
Proof.
  intros H. induction s as [|a s IH]; simpl.
  - now rewrite H.
  - destruct (isspace a); [exact IH | reflexivity].
Qed.

Lemma strip_cons_space c s : isspace c = true -> strip (c :: s) = strip s.
Proof. intros H. unfold strip. now rewrite lstrip_cons_space. Qed.

Lemma strip_snoc_space c s : isspace c = true -> strip (s ++ [c]) = strip s.
Proof.
  intros H. unfold strip. rewrite lstrip_snoc_space by exact H.
  destruct (lstrip s) as [|a l]; [reflexivity|].
  now apply rstrip_snoc_space.
Qed.

(** A function that ignores a blank at either end ignores [strip]. *)
Lemma strip_invariant {X} (f : str -> X) :
  (forall c s, isspace c = true -> f (c :: s) = f s) ->
  (forall c s, isspace c = true -> f (s ++ [c]) = f s) ->
  forall s, f (strip s) = f s.
Proof.
  intros Hl Hr s.
  assert (L : forall u, f (lstrip u) = f u).
  { induction u as [|c u IH]; [reflexivity|]. simpl.
    destruct (isspace c) eqn:E; [|reflexivity].
    rewrite IH. symmetry. now apply Hl. }
  assert (R : forall u, f (rstrip u) = f u).
  { induction u as [|c u IH] using rev_ind; [reflexivity|].
    destruct (isspace c) eqn:E.
    - rewrite rstrip_snoc_space by exact E. rewrite IH. symmetry. now apply Hr.
    - now rewrite rstrip_snoc_other. }
  unfold strip. now rewrite R, L.
Qed.

Lemma Forall_space_lstrip s : Forall (fun c => isspace c = false) s -> lstrip s = s.
Proof. destruct 1 as [|c s H _]; [reflexivity|]. simpl. now rewrite H. Qed.

Lemma strip_no_space s : Forall (fun c => isspace c = false) s -> strip s = s.
Proof.
  intros H. unfold strip. rewrite Forall_space_lstrip by exact H.
  destruct s as [|c s] using rev_ind; [reflexivity|].
  apply rstrip_snoc_other. apply Forall_app in H. destruct H as [_ H].
  now inversion H.
Qed.

Lemma split_nonempty sep s : exists ls l, split sep s = ls ++ [l].
Proof.
  induction s as [|c s (ls & l & E)]; simpl.
  - now exists [], [].
  - destruct (Ascii.eqb c sep).
    + exists ([] :: ls), l. now rewrite E.
    + rewrite E. destruct ls as [|x xs]; simpl.
      * now exists [], (c :: l).
      * now exists ((c :: x) :: xs), l.
Qed.

Lemma split_snoc sep s c ls l :
  split sep s = ls ++ [l] ->
  split sep (s ++ [c])
  = if Ascii.eqb c sep then ls ++ [l; []] else ls ++ [l ++ [c]].
Proof.
  revert ls l. induction s as [|a s IH]; intros ls l E; simpl in *.
  - destruct ls as [|x [|y ys]]; try discriminate.
    injection E as <-. simpl. now destruct (Ascii.eqb c sep).
  - destruct (Ascii.eqb a sep).
    + destruct ls as [|x xs]; simpl in E.
      * destruct (split_nonempty sep s) as (ls' & l' & E').
        rewrite E' in E. destruct ls'; discriminate.
      * injection E as <- E. rewrite (IH _ _ E).
        now destruct (Ascii.eqb c sep).
    + destruct (split_nonempty sep s) as (ls' & l' & E').
      rewrite (IH _ _ E'). rewrite E' in E.
      destruct ls' as [|x xs]; simpl in E.
      * destruct ls as [|y [|z zs]]; try discriminate.
        injection E as <-. simpl. now destruct (Ascii.eqb c sep).
      * destruct ls as [|y ys]; simpl in E.
        -- destruct xs; discriminate.
        -- injection E as <- E. apply app_inj_tail in E. destruct E as [-> ->].
           simpl. now destruct (Ascii.eqb c sep).
Qed.

Lemma strip_idempotent s : strip (strip s) = strip s.
Proof.
  apply (strip_invariant strip); intros c u H.
  - now apply strip_cons_space.
  - now apply strip_snoc_space.
Qed.

(** ** Facts about matching *)

Lemma match_atoms_spec p s m r :
  match_atoms p s = Some (m, r) <-> s = m ++ r /\ matches p m.
Proof.
  unfold matches. revert s m r. induction p as [|a p IH]; intros s m r; simpl.
  - split.
    + intros E. injection E as <- <-. split; [reflexivity | constructor].
    + intros [-> H]. inversion H. reflexivity.
  - destruct s as [|c s].
    + split; [discriminate|]. intros [E H]. inversion H; subst. discriminate.
    + destruct (atom_ok a c) eqn:Ok.
      * destruct (match_atoms p s) as [[m' r']|] eqn:M.
        -- apply IH in M. destruct M as [-> M]. split.
           ++ intros E. injection E as <- <-. split; [reflexivity|].
              now constructor.
           ++ intros [E H]. inversion H; subst. simpl in E.
              injection E as <- E.
              assert (M' : match_atoms p (m' ++ r') = Some (l', r))
                by (apply IH; now split).
              assert (M0 : match_atoms p (m' ++ r') = Some (m', r'))
                by (apply IH; now split).
              rewrite M0 in M'. now injection M' as -> ->.
        -- split; [discriminate|]. intros [E H]. inversion H; subst.
           simpl in E. injection E as <- E.
           assert (M' : match_atoms p s = Some (l', r)) by (apply IH; now split).
           congruence.
      * split; [discriminate|]. intros [E H]. inversion H; subst.
        simpl in E. injection E as <- E. congruence.
Qed.

Lemma matches_length p m : matches p m -> length m = length p.
Proof. intros H. symmetry. exact (Forall2_length H). Qed.

(** No atom of the timestamp pattern accepts a blank. *)
Lemma TS_PATTERN_no_space c :
  isspace c = true -> Forall (fun a => atom_ok a c = false) TS_PATTERN.
Proof.
  intros H.
  assert (D : isdigit c = false).
  { unfold isspace, isdigit in *. destruct (48 <=? ord c) eqn:A;
      destruct (ord c <=? 57) eqn:B; try reflexivity. lia. }
  assert (M : Ascii.eqb c "-" = false).
  { destruct (Ascii.eqb c "-") eqn:E; [|reflexivity].
    apply Ascii.eqb_eq in E. subst c. discriminate H. }
  unfold TS_PATTERN. simpl. repeat constructor; simpl; assumption.
Qed.

Lemma matches_no_space p m :
  (forall c, isspace c = true -> Forall (fun a => atom_ok a c = false) p) ->
  matches p m -> Forall (fun c => isspace c = false) m.
Proof.
  intros N H. unfold matches in H.
  induction H as [|a c p m Ok H IH]; constructor.
  - destruct (isspace c) eqn:E; [|reflexivity].
    specialize (N c E). inversion N; subst. congruence.
  - apply IH. intros c' E'. specialize (N c' E'). now inversion N.
Qed.

Lemma token_no_space m : is_token m -> Forall (fun c => isspace c = false) m.
Proof. apply matches_no_space. exact TS_PATTERN_no_space. Qed.

(** A token is recognised by running the matcher on it. *)
Lemma is_token_by_match m : match_atoms TS_PATTERN m = Some (m, []) -> is_token m.
Proof. intros H. apply match_atoms_spec in H. exact (proj2 H). Qed.

Lemma token_strip m : is_token m -> strip m = m.
Proof. intros H. apply strip_no_space. now apply token_no_space. Qed.

Lemma re_match_spec p s m :
  re_match p s = Some m <-> exists r, s = m ++ r /\ matches p m.
Proof.
  unfold re_match. destruct (match_atoms p s) as [[m' r']|] eqn:M.
  - apply match_atoms_spec in M. destruct M as [-> M]. split.
    + intros E. injection E as <-. now exists r'.
    + intros (r & E & H). f_equal.
      assert (A : match_atoms p (m ++ r) = Some (m, r))
        by (apply match_atoms_spec; now split).
      assert (B : match_atoms p (m' ++ r') = Some (m', r'))
        by (apply match_atoms_spec; now split).
      rewrite <- E in A. congruence.
  - split; [discriminate|]. intros (r & E & H).
    assert (A : match_atoms p s = Some (m, r))
      by (apply match_atoms_spec; now split).
    congruence.
Qed.

Lemma re_match_none p s :
  re_match p s = None <-> forall m r, s = m ++ r -> ~ matches p m.
Proof.
  split.
  - intros E m r -> H.
    assert (A : re_match p (m ++ r) = Some m)
      by (apply re_match_spec; now exists r).
    congruence.
  - intros H. destruct (re_match p s) as [m|] eqn:E; [|reflexivity].
    apply re_match_spec in E. destruct E as (r & E & M).
    exfalso. exact (H m r E M).
Qed.

(** A trailing character that no atom accepts does not change a match. *)
Lemma re_match_snoc p s c :
  p <> [] ->
  Forall (fun a => atom_ok a c = false) p ->
  re_match p (s ++ [c]) = re_match p s.
Proof.
  unfold re_match. revert s. induction p as [|a p IH]; intros s Hne N.
  - congruence.
  - inversion N as [|? ? Na Np]; subst. simpl.
    destruct s as [|x s]; simpl.
    + now rewrite Na.
    + destruct (atom_ok a x); [|reflexivity].
      destruct p as [|b p].
      * simpl. reflexivity.
      * specialize (IH s ltac:(discriminate) Np).
        destruct (match_atoms (b :: p) (s ++ [c])) as [[m r]|];
          destruct (match_atoms (b :: p) s) as [[m' r']|];
          try discriminate; try reflexivity.
        now injection IH as ->.
Qed.

Lemma re_match_cons_rejected p s c :
  p <> [] ->
  Forall (fun a => atom_ok a c = false) p ->
  re_match p (c :: s) = None.
Proof.
  intros Hne N. unfold re_match. destruct p as [|a p]; [congruence|].
  inversion N; subst. simpl. now rewrite H1.
Qed.

Lemma TS_PATTERN_nonempty : TS_PATTERN <> [].
Proof. discriminate. Qed.

Lemma re_search_cons_space s c :
  isspace c = true -> re_search TS_PATTERN (c :: s) = re_search TS_PATTERN s.
Proof.
  intros H. cbn [re_search].
  now rewrite (re_match_cons_rejected _ _ _ TS_PATTERN_nonempty
                 (TS_PATTERN_no_space c H)).
Qed.

Lemma re_search_snoc_space s c :
  isspace c = true -> re_search TS_PATTERN (s ++ [c]) = re_search TS_PATTERN s.
Proof.
  intros H. pose proof (TS_PATTERN_no_space c H) as N.
  induction s as [|x s IH].
  - cbn [app re_search].
    rewrite (re_match_cons_rejected _ _ _ TS_PATTERN_nonempty N).
    reflexivity.
  - change ((x :: s) ++ [c]) with (x :: (s ++ [c])). cbn [re_search].
    change (x :: (s ++ [c])) with ((x :: s) ++ [c]).
    rewrite (re_match_snoc _ _ _ TS_PATTERN_nonempty N).
    now rewrite IH.
Qed.

Lemma re_search_strip s : re_search TS_PATTERN (strip s) = re_search TS_PATTERN s.
Proof.
  apply (strip_invariant (re_search TS_PATTERN)); intros c u H.
  - now apply re_search_cons_space.
  - now apply re_search_snoc_space.
Qed.

(** [re_search] finds the leftmost occurrence. *)
Lemma re_search_leftmost p s ts :
  re_search p s = Some ts ->
  exists pre post,
    s = pre ++ ts ++ post /\ matches p ts
    /\ forall pre' m' post',
         s = pre' ++ m' ++ post' -> matches p m' ->
         (length pre <= length pre')%nat.
Proof.
  induction s as [|c s IH]; cbn [re_search].
  - destruct (re_match p []) as [m|] eqn:M; [|discriminate].
    intros E. injection E as ->. apply re_match_spec in M.
    destruct M as (r & E & M). exists [], r. repeat split; auto.
    intros. simpl. lia.
  - destruct (re_match p (c :: s)) as [m|] eqn:M.
    + intros E. injection E as ->. apply re_match_spec in M.
      destruct M as (r & E & M). exists [], r. repeat split; auto.
      intros. simpl. lia.
    + intros E. destruct (IH E) as (pre & post & Es & Mt & Left).
      exists (c :: pre), post. repeat split.
      * simpl. now rewrite Es.
      * exact Mt.
      * intros pre' m' post' E' M'. destruct pre' as [|c' pre'].
        -- exfalso. simpl in E'.
           exact (proj1 (re_match_none p (c :: s)) M m' post' E' M').
        -- simpl in E'. injection E' as <- E'. simpl.
           specialize (Left pre' m' post' E' M'). lia.
Qed.

Lemma re_search_finds p s pre m post :
  s = pre ++ m ++ post -> matches p m -> exists ts, re_search p s = Some ts.
Proof.
  intros -> M. induction pre as [|c pre IH].
  - simpl. assert (A : re_match p (m ++ post) = Some m)
      by (apply re_match_spec; now exists post).
    destruct (m ++ post); cbn [re_search]; rewrite A; now exists m.
  - change ((c :: pre) ++ m ++ post) with (c :: (pre ++ m ++ post)).
    cbn [re_search]. destruct (re_match p (c :: pre ++ m ++ post)) as [m0|].
    + now exists m0.
    + exact IH.
Qed.

(** ** Facts about the snapshot list *)

Import Helloworld2TimeMachineLatestBackup.

Lemma keeps_token_prefixed line : keeps line = true <-> token_prefixed line.
Proof.
  unfold keeps, token_prefixed, SNAPSHOT_TS_RE, is_token.
  destruct (re_match TS_PATTERN (strip line)) as [m|] eqn:M.
  - apply re_match_spec in M. destruct M as (r & E & M).
    split; [|reflexivity]. intros _. now exists m, r.
  - split; [discriminate|]. intros (tok & rest & E & T).
    exfalso. exact (proj1 (re_match_none _ _) M tok rest E T).
Qed.

Lemma keeps_cons_space c l : isspace c = true -> keeps (c :: l) = keeps l.
Proof. intros H. unfold keeps. now rewrite strip_cons_space. Qed.

Lemma keeps_snoc_space c l : isspace c = true -> keeps (l ++ [c]) = keeps l.
Proof. intros H. unfold keeps. now rewrite strip_snoc_space. Qed.

Lemma select_app l1 l2 : select (l1 ++ l2) = select l1 ++ select l2.
Proof. unfold select. now rewrite filter_app, map_app. Qed.

Lemma select_none ls : (forall l, In l ls -> keeps l = false) -> select ls = [].
Proof.
  intros H. unfold select. induction ls as [|x ls IH]; [reflexivity|].
  simpl. rewrite (H x) by now left. apply IH. intros l Hl. apply H. now right.
Qed.

Lemma newline_is_space : isspace "010" = true.
Proof. reflexivity. Qed.

Lemma select_split_cons_space c s :
  isspace c = true -> select (split "010" (c :: s)) = select (split "010" s).
Proof.
  intros H. simpl. destruct (Ascii.eqb c "010").
  - reflexivity.
  - destruct (split_nonempty "010" s) as (ls & l & E). rewrite E.
    destruct ls as [|x xs]; unfold select; simpl.
    + rewrite (keeps_cons_space c l H).
      destruct (keeps l); simpl; [|reflexivity].
      now rewrite strip_cons_space.
    + rewrite (keeps_cons_space c x H).
      destruct (keeps x); simpl; [|reflexivity].
      now rewrite strip_cons_space.
Qed.

Lemma select_split_snoc_space c s :
  isspace c = true -> select (split "010" (s ++ [c])) = select (split "010" s).
Proof.
  intros H. destruct (split_nonempty "010" s) as (ls & l & E).
  rewrite (split_snoc _ _ c _ _ E), E.
  destruct (Ascii.eqb c "010"); rewrite !select_app;
    apply (f_equal (app (select ls))); unfold select; simpl.
  - destruct (keeps l); reflexivity.
  - rewrite (keeps_snoc_space c l H).
    destruct (keeps l); simpl; [|reflexivity].
    now rewrite strip_snoc_space.
Qed.

(** Trimming the whole output first does not change the kept lines. *)
Lemma timestamps_of_lines out : timestamps_of out = select (split "010" out).
Proof.
  unfold timestamps_of.
  apply (strip_invariant (fun s => select (split "010" s))); intros c s H.
  - now apply select_split_cons_space.
  - now apply select_split_snoc_space.
Qed.

Lemma select_last l1 line l2 :
  keeps line = true ->
  (forall l, In l l2 -> keeps l = false) ->
  select (l1 ++ line :: l2) = select l1 ++ [strip line].
Proof.
  intros K N. rewrite select_app. apply (f_equal (app (select l1))).
  change (line :: l2) with ([line] ++ l2). rewrite select_app.
  rewrite (select_none l2 N). unfold select. simpl. now rewrite K.
Qed.

(** Among lines of which one is kept, there is a last kept one. *)
Lemma last_kept ls :
  (exists l, In l ls /\ keeps l = true) ->
  exists l1 line l2,
    ls = l1 ++ line :: l2 /\ keeps line = true
    /\ forall l, In l l2 -> keeps l = false.
Proof.
  induction ls as [|x ls IH]; intros (l & Hin & K); [destruct Hin|].
  destruct (existsb keeps ls) eqn:E.
  - apply existsb_exists in E. destruct (IH E) as (l1 & line & l2 & -> & K' & N).
    now exists (x :: l1), line, l2.
  - assert (N : forall l', In l' ls -> keeps l' = false).
    { intros l' Hl'. destruct (keeps l') eqn:K'; [|reflexivity].
      assert (existsb keeps ls = true)
        by (apply existsb_exists; now exists l').
      congruence. }
    destruct Hin as [->|Hin].
    + now exists [], l, ls.
    + rewrite (N l Hin) in K. discriminate.
Qed.

Lemma select_empty_lines out :
  strip out = [] -> select (split "010" out) = [].
Proof.
  intros E. rewrite <- timestamps_of_lines. unfold timestamps_of. now rewrite E.
Qed.

(** The value of [latest_ts] when the last kept line is known. *)
Lemma latest_ts_last h out l1 line l2 :
  tmutil_listlocalsnapshotdates h = inr out ->
  split "010" out = l1 ++ line :: l2 ->
  keeps line = true ->
  (forall l, In l l2 -> keeps l = false) ->
  latest_ts h = inr (strip line).
Proof.
  intros Hout Hsplit K N. unfold latest_ts. rewrite Hout. simpl.
  assert (S : select (split "010" out) = select l1 ++ [strip line])
    by (rewrite Hsplit; now apply select_last).
  destruct (strip out) as [|c o] eqn:E.
  - rewrite (select_empty_lines out E) in S. now destruct (select l1).
  - rewrite <- E. rewrite timestamps_of_lines.
    assert (S' : select (split "010" (strip out)) = select (split "010" out)).
    { rewrite <- (timestamps_of_lines out). reflexivity. }
    rewrite S', S.
    destruct (select l1 ++ [strip line]) as [|y ys] eqn:F.
    + now destruct (select l1).
    + rewrite <- F. unfold ret. f_equal. apply last_last.
Qed.

(** ** Facts about time spans and their rounding *)

Lemma total_microseconds_new d s us :
  total_microseconds (timedelta_new d s us) = (d * 86400 + s) * 1000000 + us.
Proof.
  unfold total_microseconds, timedelta_new. cbn [days seconds microseconds].
  pose proof (Z.div_mod (s + us / 1000000) 86400 ltac:(lia)).
  pose proof (Z.div_mod us 1000000 ltac:(lia)).
  lia.
Qed.

(** The span of a subtraction is the difference of the two instants. *)
Lemma total_microseconds_sub a b :
  total_microseconds (sub a b) = micros a - micros b.
Proof.
  unfold sub. rewrite total_microseconds_new. unfold micros. lia.
Qed.

Lemma round_half_even_bounds n d :
  0 < d ->
  2 * n - d <= 2 * (round_half_even n d * d) <= 2 * n + d.
Proof.
  intros Hd. unfold round_half_even.
  pose proof (Z.div_mod n d ltac:(lia)) as E.
  pose proof (Z.mod_pos_bound n d Hd) as B.
  destruct (Z.ltb_spec (2 * (n mod d)) d);
    [|destruct (Z.ltb_spec d (2 * (n mod d)));
      [|destruct (Z.even (n / d))]]; nia.
Qed.

Lemma round_half_even_nonneg n d : 0 <= n -> 0 < d -> 0 <= round_half_even n d.
Proof.
  intros Hn Hd. pose proof (round_half_even_bounds n d Hd). nia.
Qed.

Lemma scaled_num_nonneg a e : 0 <= a -> 0 <= scaled_num a e.
Proof.
  intros H. unfold scaled_num.
  pose proof (Z.pow_pos_nonneg 2 (Z.max 0 (- e)) ltac:(lia) ltac:(lia)). nia.
Qed.

Lemma scaled_den_pos b e : 0 < b -> 0 < scaled_den b e.
Proof.
  intros H. unfold scaled_den.
  pose proof (Z.pow_pos_nonneg 2 (Z.max 0 e) ltac:(lia) ltac:(lia)). nia.
Qed.

(** The mantissa is scaled up to at least [2^52]. *)
Lemma quotient_exponent_lower a b :
  0 < a -> 0 < b ->
  let e := quotient_exponent a b in
  2 ^ 52 * scaled_den b e <= scaled_num a e.
Proof.
  intros Ha Hb. unfold quotient_exponent.
  set (e0 := Z.log2 a - Z.log2 b - 52).
  destruct (Z.leb_spec (2 ^ 52 * scaled_den b e0) (scaled_num a e0)) as [L|L];
    cbv zeta; [exact L|].
  destruct (Z.log2_spec a Ha) as [La _].
  destruct (Z.log2_spec b Hb) as [_ Ub].
  pose proof (Z.log2_nonneg a) as Na. pose proof (Z.log2_nonneg b) as Nb.
  unfold scaled_den, scaled_num.
  destruct (Z.le_gt_cases 1 e0) as [P|P].
  - rewrite (Z.max_r 0 (e0 - 1)) by lia. rewrite (Z.max_l 0 (- (e0 - 1))) by lia.
    change (2 ^ 0) with 1. rewrite Z.mul_1_r.
    assert (E : 2 ^ Z.log2 a = 2 ^ 52 * 2 ^ Z.succ (Z.log2 b) * 2 ^ (e0 - 1)).
    { rewrite <- !Z.pow_add_r by lia. f_equal. unfold e0. lia. }
    pose proof (Z.pow_pos_nonneg 2 (e0 - 1) ltac:(lia) ltac:(lia)).
    nia.
  - rewrite (Z.max_l 0 (e0 - 1)) by lia. rewrite (Z.max_r 0 (- (e0 - 1))) by lia.
    change (2 ^ 0) with 1. rewrite Z.mul_1_r.
    assert (E : 2 ^ Z.log2 a * 2 ^ (- (e0 - 1)) = 2 ^ 52 * 2 ^ Z.succ (Z.log2 b)).
    { rewrite <- !Z.pow_add_r by lia. f_equal. unfold e0. lia. }
    pose proof (Z.pow_pos_nonneg 2 (- (e0 - 1)) ltac:(lia) ltac:(lia)).
    nia.
Qed.

(** Below [2^34] the quotient is scaled by at least [2^19]. *)
Lemma quotient_exponent_small a b :
  0 < a -> 0 < b -> a < 2 ^ 34 * b ->
  quotient_exponent a b <= -19.
Proof.
  intros Ha Hb Hlt.
  pose proof (quotient_exponent_lower a b Ha Hb) as L. cbv zeta in L.
  set (e := quotient_exponent a b) in *.
  unfold scaled_den, scaled_num in L.
  destruct (Z.le_gt_cases 0 e) as [P|P].
  - exfalso. rewrite (Z.max_r 0 e) in L by lia.
    rewrite (Z.max_l 0 (- e)) in L by lia.
    pose proof (Z.pow_pos_nonneg 2 e ltac:(lia) ltac:(lia)).
    change (2 ^ 0) with 1 in L. change (2 ^ 52) with (2 ^ 34 * 262144) in L. nia.
  - rewrite (Z.max_l 0 e) in L by lia. rewrite (Z.max_r 0 (- e)) in L by lia.
    change (2 ^ 0) with 1 in L.
    assert (Q : 2 ^ 18 < 2 ^ (- e)).
    { change (2 ^ 52) with (2 ^ 34 * 2 ^ 18) in L.
      pose proof (Z.pow_pos_nonneg 2 (- e) ltac:(lia) ltac:(lia)).
      change (2 ^ 34) with 17179869184 in *. nia. }
    apply Z.pow_lt_mono_r_iff in Q; lia.
Qed.

(** Within [EXACT_SPAN], truncating the rounded quotient is the floor. *)
Lemma trunc_true_divide_exact a :
  0 <= a < EXACT_SPAN -> trunc (true_divide a 1000000) = a / 1000000.
Proof.
  unfold EXACT_SPAN. intros [Ha Hlt]. unfold true_divide.
  destruct (Z.eqb_spec a 0) as [->|Hne]; [reflexivity|].
  rewrite Z.abs_eq by lia.
  assert (Hpos : 0 < a) by lia.
  pose proof (quotient_exponent_small a 1000000 Hpos ltac:(lia) Hlt) as He.
  set (e := quotient_exponent a 1000000) in *.
  unfold trunc. cbn [fneg fmant fexp].
  destruct (Z.ltb_spec a 0); [lia|].
  destruct (Z.leb_spec 0 e); [lia|].
  unfold scaled_num, scaled_den.
  rewrite (Z.max_r 0 (- e)) by lia. rewrite (Z.max_l 0 e) by lia.
  change (2 ^ 0) with 1. rewrite Z.mul_1_r.
  set (P := 2 ^ (- e)).
  assert (HP : 2 ^ 19 <= P) by (apply Z.pow_le_mono_r; lia).
  change (2 ^ 19) with 524288 in HP.
  pose proof (round_half_even_bounds (a * P) 1000000 ltac:(lia)) as R.
  set (m := round_half_even (a * P) 1000000) in *.
  pose proof (Z.div_mod a 1000000 ltac:(lia)) as D.
  pose proof (Z.mod_pos_bound a 1000000 ltac:(lia)) as B.
  set (q := a / 1000000) in *. set (r := a mod 1000000) in *.
  symmetry. apply Z.div_unique with (r := m - q * P); nia.
Qed.

Lemma trunc_true_divide_nonneg a : 0 <= a -> 0 <= trunc (true_divide a 1000000).
Proof.
  intros Ha. unfold true_divide.
  destruct (Z.eqb_spec a 0) as [->|Hne]; [cbn; lia|].
  unfold trunc. cbn [fneg fmant fexp].
  destruct (Z.ltb_spec a 0); [lia|].
  set (e := quotient_exponent (Z.abs a) 1000000).
  pose proof (round_half_even_nonneg (scaled_num (Z.abs a) e)
                (scaled_den 1000000 e)
                (scaled_num_nonneg _ _ (Z.abs_nonneg a))
                (scaled_den_pos 1000000 e ltac:(lia))) as M.
  destruct (Z.leb_spec 0 e); cbv iota.
  - apply Z.mul_nonneg_nonneg; [exact M|]. apply Z.pow_nonneg. lia.
  - apply Z.div_pos; [exact M|]. apply Z.pow_pos_nonneg; lia.
Qed.

Lemma trunc_true_divide_neg a : a < 0 -> trunc (true_divide a 1000000) <= 0.
Proof.
  intros Ha. unfold true_divide.
  destruct (Z.eqb_spec a 0) as [->|Hne]; [lia|].
  unfold trunc. cbn [fneg fmant fexp].
  destruct (Z.ltb_spec a 0); [|lia].
  set (e := quotient_exponent (Z.abs a) 1000000).
  pose proof (round_half_even_nonneg (scaled_num (Z.abs a) e)
                (scaled_den 1000000 e)
                (scaled_num_nonneg _ _ (Z.abs_nonneg a))
                (scaled_den_pos 1000000 e ltac:(lia))) as M.
  destruct (Z.leb_spec 0 e); cbv iota.
  - assert (0 <= round_half_even (scaled_num (Z.abs a) e) (scaled_den 1000000 e)
                 * 2 ^ e); [|lia].
    apply Z.mul_nonneg_nonneg; [exact M|]. apply Z.pow_nonneg. lia.
  - assert (0 <= round_half_even (scaled_num (Z.abs a) e) (scaled_den 1000000 e)
                 / 2 ^ (- e)); [|lia].
    apply Z.div_pos; [exact M|]. apply Z.pow_pos_nonneg; lia.
Qed.

(** The rounding of [true_divide] is that of the standard library's
    [SFdiv], on spans short and long, positive and negative. *)
Example true_divide_agrees_with_SFdiv :
  Forall (fun a => to_spec (true_divide a 1000000) = spec_true_divide a 1000000)
         [1; 999999; 1000000; 1500000; 5625250000; 12345678912345;
          9007199254740993; 17179869183999999; 17179869184999999;
          19723132800999999; 315537897599999999; -1; -1999999;
          -19723132800999999].
Proof. repeat (constructor; [vm_compute; reflexivity|]). constructor. Qed.

Lemma age_seconds_nonneg now t : 0 <= age_seconds now t.
Proof.
  unfold age_seconds. cbv zeta.
  destruct (Z.ltb_spec (trunc (total_seconds (sub now t))) 0); lia.
Qed.

Lemma age_seconds_exact now t :
  0 <= micros now - micros t < EXACT_SPAN ->
  age_seconds now t = floor_seconds now t.
Proof.
  intros H. unfold age_seconds, floor_seconds, total_seconds. cbv zeta.
  rewrite total_microseconds_sub, (trunc_true_divide_exact _ H).
  destruct (Z.ltb_spec ((micros now - micros t) / 1000000) 0) as [L|L];
    [|reflexivity].
  pose proof (Z.div_pos (micros now - micros t) 1000000 ltac:(lia) ltac:(lia)).
  lia.
Qed.

Lemma age_seconds_skew now t :
  micros now < micros t -> age_seconds now t = 0.
Proof.
  intros H. unfold age_seconds, total_seconds. cbv zeta.
  rewrite total_microseconds_sub.
  pose proof (trunc_true_divide_neg (micros now - micros t) ltac:(lia)) as N.
  destruct (Z.ltb_spec (trunc (true_divide (micros now - micros t) 1000000)) 0);
    lia.
Qed.

(** ** Facts about the mount table scan *)

Lemma startswith_spec p s : startswith p s = true <-> exists q, s = p ++ q.
Proof.
  revert s. induction p as [|a p IH]; intros s; simpl.
  - split; [now exists s | reflexivity].
  - destruct s as [|b s].
    + split; [discriminate | intros (q & E); discriminate].
    + rewrite andb_true_iff, Ascii.eqb_eq, IH. split.
      * intros (-> & q & ->). now exists q.
      * intros (q & E). injection E as -> ->. split; [reflexivity | now exists q].
Qed.

Lemma contains_spec n h : contains n h = true <-> exists p q, h = p ++ n ++ q.
Proof.
  induction h as [|c h IH]; simpl; rewrite orb_true_iff, startswith_spec.
  - split.
    + intros [(q & E)|F]; [now exists [], q | discriminate].
    + intros (p & q & E). left. destruct p; [now exists q|discriminate].
  - rewrite IH. split.
    + intros [(q & E)|(p & q & E)].
      * now exists [], q.
      * exists (c :: p), q. now rewrite E.
    + intros (p & q & E). destruct p as [|c' p].
      * left. now exists q.
      * right. injection E as _ E. now exists p, q.
Qed.

(** The test of line 21, without the padding. *)
Lemma padded_contains mp line :
  contains (lit " " ++ mp ++ lit " ") (lit " " ++ line ++ lit " ") = true
  <-> delimited_by is_blank mp line.
Proof.
  rewrite contains_spec. unfold delimited_by, is_blank.
  change (lit " ") with [" "%char]. split.
  - intros (p & q & E).
    assert (Q : q = [] /\ " "%char :: line = p ++ " "%char :: mp
                \/ exists q', q = q' ++ [" "%char]
                              /\ " "%char :: line
                                 = p ++ " "%char :: mp ++ " "%char :: q').
    { destruct q as [|x q] using rev_ind.
      - left. split; [reflexivity|]. rewrite app_nil_r in E.
        change ([" "%char] ++ line ++ [" "%char])
          with ((" "%char :: line) ++ [" "%char]) in E.
        replace (p ++ [" "%char] ++ mp ++ [" "%char])
          with ((p ++ " "%char :: mp) ++ [" "%char]) in E
          by (rewrite <- app_assoc; reflexivity).
        apply app_inj_tail in E. now destruct E as [E _].
      - right. exists q. clear IHq.
        change ([" "%char] ++ line ++ [" "%char])
          with ((" "%char :: line) ++ [" "%char]) in E.
        assert (R : p ++ ([" "%char] ++ mp ++ [" "%char]) ++ q ++ [x]
                    = (p ++ " "%char :: mp ++ " "%char :: q) ++ [x])
          by (simpl; rewrite <- !app_assoc; simpl; rewrite <- !app_assoc;
              reflexivity).
        rewrite R in E.
        apply app_inj_tail in E. destruct E as [E <-]. now split. }
    destruct Q as [(-> & E1)|(q' & -> & E1)].
    + destruct p as [|c p]; simpl in E1.
      * injection E1 as ->. exists [], []. rewrite app_nil_r. auto.
      * injection E1 as <- ->. exists (p ++ [" "%char]), [].
        rewrite app_nil_r, <- app_assoc. split; [reflexivity|].
        split; [right; now exists p, " "%char | now left].
    + destruct p as [|c p]; simpl in E1.
      * injection E1 as ->. exists [], (" "%char :: q').
        split; [reflexivity|]. split; [now left|right; now exists " "%char, q'].
      * injection E1 as <- ->. exists (p ++ [" "%char]), (" "%char :: q').
        rewrite <- app_assoc. split; [reflexivity|].
        split; right; [now exists p, " "%char | now exists " "%char, q'].
  - intros (pre & post & -> & Hpre & Hpost).
    assert (P : exists p, [" "%char] ++ pre = p ++ [" "%char]).
    { destruct Hpre as [->|(p & c & -> & Hc)].
      - now exists [].
      - apply Ascii.eqb_eq in Hc. subst c. now exists (" "%char :: p). }
    assert (Q : exists q, post ++ [" "%char] = [" "%char] ++ q).
    { destruct Hpost as [->|(c & q & -> & Hc)].
      - now exists [].
      - apply Ascii.eqb_eq in Hc. subst c. now exists (q ++ [" "%char]). }
    destruct P as (p & P). destruct Q as (q & Q). exists p, q.
    transitivity (([" "%char] ++ pre) ++ mp ++ (post ++ [" "%char])).
    + now rewrite <- !app_assoc.
    + rewrite P, Q. now rewrite <- !app_assoc.
Qed.

Import TimeMachineMountCheck.

Lemma scan_lines_values mp lines : scan_lines mp lines = 1 \/ scan_lines mp lines = 0.
Proof.
  induction lines as [|l ls IH]; cbn [scan_lines]; [now right|].
  destruct (contains _ _); [now left | exact IH].
Qed.

Lemma scan_lines_spec mp lines :
  scan_lines mp lines = 1
  <-> exists line, In line lines /\ delimited_by is_blank mp line.
Proof.
  induction lines as [|l ls IH]; cbn [scan_lines].
  - split; [discriminate | intros (line & [] & _)].
  - destruct (contains _ _) eqn:C.
    + split; [|reflexivity]. intros _. exists l. split; [now left|].
      now apply padded_contains.
    + rewrite IH. split.
      * intros (line & Hin & D). exists line. split; [now right | exact D].
      * intros (line & [->|Hin] & D).
        -- apply padded_contains in D. congruence.
        -- now exists line.
Qed.

(** ** Facts about the date parser *)

Lemma match_items_length its ws :
  Forall2 fits its ws ->
  forall s g r,
    In (g, r) (match_items its s) ->
    (length s <= length r + list_sum ws)%nat.
Proof.
  induction 1 as [|it n its ws Hit _ IH]; intros s g r Hin.
  - simpl in Hin. destruct Hin as [E|[]]. injection E as _ <-. simpl. lia.
  - destruct it as [c|alts]; simpl in Hin, Hit.
    + destruct s as [|c' s]; [destruct Hin|].
      destruct (Ascii.eqb c' c); [|destruct Hin].
      specialize (IH _ _ _ Hin). subst n. simpl in *. lia.
    + apply in_flat_map in Hin. destruct Hin as (alt & Halt & Hin).
      destruct (match_atoms alt s) as [[m r0]|] eqn:M; [|destruct Hin].
      apply in_map_iff in Hin. destruct Hin as ([g' r'] & E & Hin).
      simpl in E. injection E as _ <-.
      apply match_atoms_spec in M. destruct M as [-> M].
      apply matches_length in M. specialize (IH _ _ _ Hin).
      rewrite Forall_forall in Hit. specialize (Hit alt Halt).
      rewrite length_app. simpl. lia.
Qed.

(** [strptime] accepts no text of more than 17 characters. *)
Lemma strptime_length data t : strptime data = Some t -> (length data <= 17)%nat.
Proof.
  unfold strptime.
  destruct (match_items FORMAT data) as [|[groups rest] tl] eqn:M; [discriminate|].
  destruct rest as [|c rest]; [|discriminate]. intros _.
  assert (Hin : In (groups, []) (match_items FORMAT data))
    by (rewrite M; now left).
  apply (match_items_length FORMAT [4; 1; 2; 1; 2; 1; 2; 2; 2]%nat) in Hin.
  - simpl in Hin. lia.
  - unfold FORMAT, DIRECTIVE_Y, DIRECTIVE_m, DIRECTIVE_d, DIRECTIVE_H,
      DIRECTIVE_M, DIRECTIVE_S.
    repeat constructor; simpl; lia.
Qed.

Lemma strptime_trailing tok rest :
  is_token tok -> rest <> [] -> strptime (tok ++ rest) = None.
Proof.
  intros T R. destruct (strptime (tok ++ rest)) as [t|] eqn:E; [|reflexivity].
  apply strptime_length in E. rewrite length_app in E.
  apply matches_length in T. change (length TS_PATTERN) with 17%nat in T.
  destruct rest; [congruence|]. simpl in E. lia.
Qed.

Lemma isdigit_cases a : isdigit a = true -> In a (lit "0123456789").
Proof.
  destruct a as [[] [] [] [] [] [] [] []]; intros H; try discriminate H;
    vm_compute; tauto.
Qed.

Lemma isdigit_not_space a : isdigit a = true -> isspace a = false.
Proof.
  intros H. apply isdigit_cases in H. vm_compute in H.
  repeat (destruct H as [H|H]; [subst; reflexivity|]). destruct H.
Qed.

Ltac digit_cases H :=
  apply isdigit_cases in H; vm_compute in H;
  repeat (destruct H as [H|H]; [subst|]); [..|destruct H].

Ltac group_by_cases Ha Hb :=
  digit_cases Ha; digit_cases Hb; simpl; rewrite ?app_nil_r; reflexivity.

Lemma group_m its a b s :
  isdigit a = true -> isdigit b = true ->
  match_items (DIRECTIVE_m :: its) (a :: b :: s)
  = (if (1 <=? two_digits a b) && (two_digits a b <=? 12)
     then map (push [a; b]) (match_items its s) else [])
    ++ (if negb (Ascii.eqb a "0")
        then map (push [a]) (match_items its (b :: s)) else []).
Proof. intros Ha Hb. group_by_cases Ha Hb. Qed.

Lemma group_d its a b s :
  isdigit a = true -> isdigit b = true ->
  match_items (DIRECTIVE_d :: its) (a :: b :: s)
  = (if (1 <=? two_digits a b) && (two_digits a b <=? 31)
     then map (push [a; b]) (match_items its s) else [])
    ++ (if negb (Ascii.eqb a "0")
        then map (push [a]) (match_items its (b :: s)) else []).
Proof. intros Ha Hb. group_by_cases Ha Hb. Qed.

Lemma group_H its a b s :
  isdigit a = true -> isdigit b = true ->
  match_items (DIRECTIVE_H :: its) (a :: b :: s)
  = (if two_digits a b <=? 23
     then map (push [a; b]) (match_items its s) else [])
    ++ map (push [a]) (match_items its (b :: s)).
Proof. intros Ha Hb. group_by_cases Ha Hb. Qed.

Lemma group_M its a b s :
  isdigit a = true -> isdigit b = true ->
  match_items (DIRECTIVE_M :: its) (a :: b :: s)
  = (if two_digits a b <=? 59
     then map (push [a; b]) (match_items its s) else [])
    ++ map (push [a]) (match_items its (b :: s)).
Proof. intros Ha Hb. group_by_cases Ha Hb. Qed.

Lemma group_S its a b s :
  isdigit a = true -> isdigit b = true ->
  match_items (DIRECTIVE_S :: its) (a :: b :: s)
  = (if two_digits a b <=? 61
     then map (push [a; b]) (match_items its s) else [])
    ++ map (push [a]) (match_items its (b :: s)).
Proof. intros Ha Hb. group_by_cases Ha Hb. Qed.

Lemma group_Y its a b c d s :
  isdigit a = true -> isdigit b = true -> isdigit c = true -> isdigit d = true ->
  match_items (DIRECTIVE_Y :: its) (a :: b :: c :: d :: s)
  = map (push [a; b; c; d]) (match_items its s).
Proof.
  intros Ha Hb Hc Hd. simpl. rewrite Ha, Hb, Hc, Hd. now rewrite app_nil_r.
Qed.

Lemma literal_dash its s :
  match_items (Literal "-" :: its) ("-"%char :: s) = match_items its s.
Proof. reflexivity. Qed.

Lemma whole_match_map m l :
  whole_match (map (push m) l) = option_map (cons m) (whole_match l).
Proof. destruct l as [|[g [|c r]] l]; reflexivity. Qed.

Lemma whole_match_fallback (c : bool) m l f :
  (forall gr, In gr f -> snd gr <> []) ->
  whole_match ((if c then map (push m) l else []) ++ f)
  = if c then option_map (cons m) (whole_match l) else None.
Proof.
  intros F.
  assert (N : whole_match f = None).
  { destruct f as [|[g [|x r]] f]; try reflexivity.
    exfalso. apply (F (g, [])); [now left | reflexivity]. }
  destruct c; [|exact N].
  destruct l as [|[g [|x r]] l]; simpl; [exact N | reflexivity..].
Qed.

Lemma fallback_rest its ws (c : bool) m s :
  Forall2 fits its ws ->
  length s = S (list_sum ws) ->
  forall gr, In gr (if c then map (push m) (match_items its s) else []) ->
             snd gr <> [].
Proof.
  intros W L gr Hin. destruct c; [|destruct Hin].
  apply in_map_iff in Hin. destruct Hin as ([g r] & <- & Hin).
  apply (match_items_length its ws W) in Hin. simpl.
  destruct r; [simpl in Hin; lia | discriminate].
Qed.

Ltac fits_format := repeat constructor; simpl; lia.

Lemma whole_match_token y1 y2 y3 y4 m1 m2 d1 d2 h1 h2 n1 n2 s1 s2 :
  Forall (fun c => isdigit c = true)
         [y1; y2; y3; y4; m1; m2; d1; d2; h1; h2; n1; n2; s1; s2] ->
  whole_match
    (match_items FORMAT
       [y1; y2; y3; y4; "-"; m1; m2; "-"; d1; d2; "-"; h1; h2; n1; n2; s1; s2]%char)
  = if ((1 <=? two_digits m1 m2) && (two_digits m1 m2 <=? 12))
       && ((1 <=? two_digits d1 d2) && (two_digits d1 d2 <=? 31))
       && (two_digits h1 h2 <=? 23) && (two_digits n1 n2 <=? 59)
       && (two_digits s1 s2 <=? 61)
    then Some [[y1; y2; y3; y4]; [m1; m2]; [d1; d2]; [h1; h2]; [n1; n2]; [s1; s2]]
    else None.
Proof.
  intros D.
  repeat match goal with
         | H : Forall _ (_ :: _) |- _ => inversion H; clear H; subst
         end.
  unfold FORMAT.
  rewrite group_Y by assumption. rewrite whole_match_map.
  rewrite literal_dash.
  rewrite group_m by assumption.
  rewrite whole_match_fallback
    by (apply (fallback_rest _ [1; 2; 1; 2; 2; 2]%nat);
        [unfold DIRECTIVE_d, DIRECTIVE_H, DIRECTIVE_M, DIRECTIVE_S; fits_format
        | reflexivity]).
  destruct ((1 <=? two_digits m1 m2) && (two_digits m1 m2 <=? 12));
    [|reflexivity].
  rewrite literal_dash.
  rewrite group_d by assumption.
  rewrite whole_match_fallback
    by (apply (fallback_rest _ [1; 2; 2; 2]%nat);
        [unfold DIRECTIVE_H, DIRECTIVE_M, DIRECTIVE_S; fits_format
        | reflexivity]).
  destruct ((1 <=? two_digits d1 d2) && (two_digits d1 d2 <=? 31));
    [|reflexivity].
  rewrite literal_dash.
  rewrite group_H by assumption.
  rewrite whole_match_fallback
    by (apply (fallback_rest _ [2; 2]%nat true);
        [unfold DIRECTIVE_M, DIRECTIVE_S; fits_format | reflexivity]).
  destruct (two_digits h1 h2 <=? 23); [|reflexivity].
  rewrite group_M by assumption.
  rewrite whole_match_fallback
    by (apply (fallback_rest _ [2]%nat true);
        [unfold DIRECTIVE_S; fits_format | reflexivity]).
  destruct (two_digits n1 n2 <=? 59); [|reflexivity].
  rewrite group_S by assumption.
  rewrite whole_match_fallback
    by (apply (fallback_rest _ []%nat true); [constructor | reflexivity]).
  destruct (two_digits s1 s2 <=? 61); reflexivity.
Qed.

Lemma token_shape ts :
  is_token ts ->
  exists y1 y2 y3 y4 m1 m2 d1 d2 h1 h2 n1 n2 s1 s2,
    ts = [y1; y2; y3; y4; "-"; m1; m2; "-"; d1; d2; "-"; h1; h2; n1; n2; s1; s2]%char
    /\ Forall (fun c => isdigit c = true)
              [y1; y2; y3; y4; m1; m2; d1; d2; h1; h2; n1; n2; s1; s2].
Proof.
  unfold is_token, matches, TS_PATTERN. simpl. intros H.
  repeat match goal with
         | H : Forall2 _ (_ :: _) _ |- _ => inversion H; clear H; subst
         | H : Forall2 _ [] _ |- _ => inversion H; clear H; subst
         | H : atom_ok (Chr _) _ = true |- _ =>
             apply Ascii.eqb_eq in H; subst
         end.
  do 14 eexists. split; [reflexivity|].
  repeat constructor; assumption.
Qed.

Lemma strptime_whole_match data :
  strptime data
  = match whole_match (match_items FORMAT data) with
    | Some [gY; gm; gd; gH; gM; gS] =>
        let t := mk_datetime (int gY) (int gm) (int gd)
                             (int gH) (int gM) (int gS) 0 in
        if valid t then Some t else None
    | _ => None
    end.
Proof.
  unfold strptime, whole_match.
  destruct (match_items FORMAT data) as [|[g [|c r]] l]; reflexivity.
Qed.

Lemma int_two_digits a b :
  isdigit a = true -> isdigit b = true -> int [a; b] = two_digits a b.
Proof.
  intros Ha Hb. unfold int, two_digits. rewrite strip_no_space; [reflexivity|].
  repeat constructor; now apply isdigit_not_space.
Qed.

Lemma int_four_digits a b c d :
  isdigit a = true -> isdigit b = true -> isdigit c = true -> isdigit d = true ->
  int [a; b; c; d] = int_of_digits [a; b; c; d].
Proof.
  intros Ha Hb Hc Hd. unfold int. rewrite strip_no_space; [reflexivity|].
  repeat constructor; now apply isdigit_not_space.
Qed.

Lemma days_in_month_le y m : days_in_month y m <= 31.
Proof.
  unfold days_in_month.
  destruct (m =? 2); [destruct (is_leap y); lia|].
  destruct ((m =? 4) || (m =? 6) || (m =? 9) || (m =? 11)); lia.
Qed.

(** On a timestamp token [strptime] gives the instant the token names,
    or fails when the fields are no date or time. *)
Lemma strptime_token ts :
  is_token ts ->
  strptime ts
  = if valid (token_datetime ts) then Some (token_datetime ts) else None.
Proof.
  intros T.
  destruct (token_shape ts T)
    as (y1 & y2 & y3 & y4 & m1 & m2 & d1 & d2 & h1 & h2 & n1 & n2 & s1 & s2
        & -> & D).
  rewrite strptime_whole_match, (whole_match_token _ _ _ _ _ _ _ _ _ _ _ _ _ _ D).
  repeat match goal with
         | H : Forall _ (_ :: _) |- _ => inversion H; clear H; subst
         end.
  unfold token_datetime, field. cbn [skipn firstn].
  fold (two_digits m1 m2) (two_digits d1 d2) (two_digits h1 h2)
       (two_digits n1 n2) (two_digits s1 s2).
  destruct (((1 <=? two_digits m1 m2) && (two_digits m1 m2 <=? 12))
            && ((1 <=? two_digits d1 d2) && (two_digits d1 d2 <=? 31))
            && (two_digits h1 h2 <=? 23) && (two_digits n1 n2 <=? 59)
            && (two_digits s1 s2 <=? 61)) eqn:R.
  - cbv zeta. rewrite !int_two_digits, int_four_digits by assumption.
    reflexivity.
  - match goal with |- None = if valid ?t then _ else _ =>
      destruct (valid t) eqn:V end; [|reflexivity].
    exfalso. unfold valid, check_date_fields, check_time_fields in V.
    cbn [year month day hour minute second microsecond] in V.
    pose proof (days_in_month_le (int_of_digits [y1; y2; y3; y4])
                  (two_digits m1 m2)) as Dm.
    rewrite !andb_true_iff, !Z.leb_le in V.
    assert (R' : ((1 <=? two_digits m1 m2) && (two_digits m1 m2 <=? 12))
            && ((1 <=? two_digits d1 d2) && (two_digits d1 d2 <=? 31))
            && (two_digits h1 h2 <=? 23) && (two_digits n1 n2 <=? 59)
            && (two_digits s1 s2 <=? 61) = true).
    { rewrite !andb_true_iff, !Z.leb_le. lia. }
    congruence.
Qed.

(** ** Facts about the freshness routines *)

Lemma backup_dt_error h e : backup_dt h = inl e <-> backup_error h e.
Proof.
  unfold backup_dt, TM_TS_RE, host_strptime. split.
  - destruct (tmutil_latestbackup h) as [e0|out] eqn:O; simpl.
    + intros E. injection E as <-. now apply backup_command_failed.
    + destruct (re_search TS_PATTERN (strip out)) as [ts|] eqn:S.
      * destruct (strptime ts) eqn:P; [discriminate|].
        intros E. injection E as <-. now apply (backup_parse_failed h out ts).
      * intros E. injection E as <-. now apply (backup_no_timestamp h out).
  - intros [e0 O|out O S|out ts O S P]; rewrite O; simpl.
    + reflexivity.
    + now rewrite S.
    + now rewrite S, P.
Qed.

Lemma snapshot_dt_error h e : snapshot_dt h = inl e <-> snapshot_error h e.
Proof.
  unfold snapshot_dt, latest_ts, host_strptime. split.
  - destruct (tmutil_listlocalsnapshotdates h) as [e0|out] eqn:O; simpl.
    + intros E. injection E as <-. now apply snapshot_command_failed.
    + destruct (strip out) as [|c o] eqn:S.
      * simpl. intros E. injection E as <-.
        now apply (snapshot_empty_output h out).
      * rewrite <- S.
        assert (Ne : strip out <> []) by (rewrite S; discriminate).
        destruct (timestamps_of (strip out)) as [|y ys] eqn:T.
        -- simpl. intros E. injection E as <-.
           apply (snapshot_no_timestamp h out O Ne).
           intros line Hin. unfold timestamps_of in T.
           rewrite strip_idempotent in T. unfold select in T.
           destruct (re_match TS_PATTERN (strip line)) as [m|] eqn:M;
             [|reflexivity].
           assert (K : In line (filter keeps (split "010" (strip out)))).
           { apply filter_In. split; [exact Hin|]. unfold keeps, SNAPSHOT_TS_RE.
             now rewrite M. }
           destruct (filter keeps (split "010" (strip out))); [destruct K|].
           discriminate.
        -- rewrite <- T. simpl.
           destruct (strptime (last (timestamps_of (strip out)) [])) eqn:P;
             [discriminate|].
           intros E. injection E as <-.
           apply (snapshot_parse_failed h out _ O Ne eq_refl); [|exact P].
           rewrite T. discriminate.
  - intros [e0 O|out O S|out O Ne N|out line O Ne L T P]; rewrite O; simpl.
    + reflexivity.
    + now rewrite S.
    + assert (T : timestamps_of (strip out) = []).
      { unfold timestamps_of. rewrite strip_idempotent. apply select_none.
        intros l Hl. unfold keeps, SNAPSHOT_TS_RE. now rewrite (N l Hl). }
      destruct (strip out) as [|c o]; [congruence|]. now rewrite T.
    + destruct (strip out) as [|c o]; [congruence|].
      destruct (timestamps_of (c :: o)) as [|y ys]; [congruence|].
      unfold ret, bind. rewrite L, P. reflexivity.
Qed.

(** What a routine built on a [try] body sends. *)
Lemma reports_try err parsed name tags now :
  (forall e, parsed = inl e <-> err e) ->
  exists sc v,
    match (t <- parsed ;; ret (age_seconds now t)) with
    | inr age => ([ServiceCheck name OK None tags], age)
    | inl e => ([ServiceCheck name CRITICAL (Some (exn_str e)) tags], -1)
    end = ([sc], v)
    /\ reports err parsed name tags now sc v.
Proof.
  intros Herr. destruct parsed as [e0|t]; simpl.
  - eexists _, _. split; [reflexivity|]. unfold reports. split; [|split].
    + intros e He. apply Herr in He. injection He as <-. now split.
    + intros N. exfalso. apply (N e0). now apply Herr.
    + split; [|reflexivity]. intros _. exists e0. now apply Herr.
  - eexists _, _. split; [reflexivity|]. unfold reports.
    pose proof (age_seconds_nonneg now t) as A. split; [|split].
    + intros e He. apply Herr in He. discriminate.
    + intros _. exists t. auto.
    + split; [lia|]. intros (e & He). apply Herr in He. discriminate.
Qed.

(** ** The properties *)

(** C1 (as amended). For both freshness routines the value returned for a
    parsed timestamp [t] is [age_seconds now t]; that age is the number of
    seconds from [t] to [now] rounded down whenever [now] is at or after
    [t] and less than [2^34] seconds (about 544 years) after it, it is
    exactly 0 whenever [now] is before [t], and it is never negative. *)
Theorem freshness_age_within_span (h : host) (tags : list str) (now t : datetime) :
  (backup_dt h = inr t ->
   snd (_get_latest_backup_age h tags now) = age_seconds now t)
  /\ (snapshot_dt h = inr t ->
      snd (_get_latest_snapshot_age h tags now) = age_seconds now t)
  /\ (0 <= micros now - micros t < EXACT_SPAN ->
      age_seconds now t = floor_seconds now t)
  /\ (micros now < micros t -> age_seconds now t = 0)
  /\ 0 <= age_seconds now t.
Proof.
  repeat split.
  - intros E. unfold _get_latest_backup_age. now rewrite E.
  - intros E. unfold _get_latest_snapshot_age. now rewrite E.
  - apply age_seconds_exact.
  - apply age_seconds_skew.
  - apply age_seconds_nonneg.
Qed.

(** C1, as first stated, fails: with a backup dated 1400-01-01 and the
    clock at 2025-01-01 00:00:00.999999 the quotient of the microseconds
    by [10**6] rounds up to a whole number of seconds, and the age
    returned is one more than the seconds elapsed, rounded down. *)
Lemma age_beyond_span_exceeds_floor :
  ~ (forall (h : host) (tags : list str) (now t : datetime),
       backup_dt h = inr t ->
       micros t <= micros now ->
       snd (_get_latest_backup_age h tags now) = floor_seconds now t).
Proof.
  intros C.
  specialize (C odd_host [] (datetime_now odd_host)
                (mk_datetime 1400 1 1 0 0 0 0)).
  assert (P : backup_dt odd_host = inr (mk_datetime 1400 1 1 0 0 0 0))
    by (vm_compute; reflexivity).
  specialize (C P).
  assert (L : micros (mk_datetime 1400 1 1 0 0 0 0) <= micros (datetime_now odd_host))
    by (vm_compute; discriminate).
  specialize (C L). vm_compute in C. discriminate.
Qed.

(** Within the span the age is the floor; a timestamp ahead of the
    clock gives 0, also when it is less than a second ahead. *)
Example age_of_sample_backup :
  age_seconds (mk_datetime 2025 9 30 3 0 0 250000) (mk_datetime 2025 9 30 1 26 15 0)
  = 5625
  /\ floor_seconds (mk_datetime 2025 9 30 3 0 0 250000)
                   (mk_datetime 2025 9 30 1 26 15 0) = 5625.
Proof. split; vm_compute; reflexivity. Qed.

Example age_clamped_on_skew :
  age_seconds (mk_datetime 2025 9 30 1 0 0 0) (mk_datetime 2025 9 30 1 26 15 0) = 0
  /\ age_seconds (mk_datetime 2025 9 30 1 26 14 500000)
                 (mk_datetime 2025 9 30 1 26 15 0) = 0.
Proof. split; vm_compute; reflexivity. Qed.

(** C2. A freshness invocation sends its heartbeat, then for the backup
    and for the snapshot a service check followed by the age gauge; when
    the [try] body raises [e] (the command fails, the output is empty, no
    timestamp is found, the timestamp does not parse) the service check is
    CRITICAL with the text of [e] and the gauge is -1; when nothing raises
    the service check is OK and the gauge is the age, not below zero; so
    the gauge is -1 exactly when an error occurred. *)
Theorem freshness_sentinel_iff_error (h : host) (i : instance) :
  let tags := Helloworld2TimeMachineLatestBackup.tags_of i in
  let now := datetime_now h in
  exists sb vb ss vs,
    Helloworld2TimeMachineLatestBackup.check h i =
      [Gauge (lit "helloworld2.timemachine.latest_backup_heartbeat") 1 tags;
       sb;
       Gauge (lit "helloworld2.timemachine.latest_backup_seconds") vb tags;
       ss;
       Gauge (lit "helloworld2.timemachine.latest_snapshot_seconds") vs tags]
    /\ reports (backup_error h) (backup_dt h)
         (lit "helloworld2.timemachine.latest_backup") tags now sb vb
    /\ reports (snapshot_error h) (snapshot_dt h)
         (lit "helloworld2.timemachine.latest_snapshot") tags now ss vs.
Proof.
  intros tags now.
  destruct (reports_try (backup_error h) (backup_dt h)
              (lit "helloworld2.timemachine.latest_backup") tags now
              (backup_dt_error h)) as (sb & vb & Eb & Rb).
  destruct (reports_try (snapshot_error h) (snapshot_dt h)
              (lit "helloworld2.timemachine.latest_snapshot") tags now
              (snapshot_dt_error h)) as (ss & vs & Es & Rs).
  exists sb, vb, ss, vs. split; [|split; assumption].
  unfold Helloworld2TimeMachineLatestBackup.check.
  unfold _get_latest_backup_age, _get_latest_snapshot_age.
  fold tags. fold now. rewrite Eb, Es. reflexivity.
Qed.

(** When [tmutil] cannot be run, both routines report the error's text
    and the sentinel. *)
Example command_failure_is_critical :
  Helloworld2TimeMachineLatestBackup.check broken_host tagged_instance =
    [Gauge (lit "helloworld2.timemachine.latest_backup_heartbeat") 1
       [lit "env:home"];
     ServiceCheck (lit "helloworld2.timemachine.latest_backup") CRITICAL
       (Some (lit "No such file or directory: /usr/bin/tmutil")) [lit "env:home"];
     Gauge (lit "helloworld2.timemachine.latest_backup_seconds") (-1)
       [lit "env:home"];
     ServiceCheck (lit "helloworld2.timemachine.latest_snapshot") CRITICAL
       (Some (lit "No such file or directory: /usr/bin/tmutil")) [lit "env:home"];
     Gauge (lit "helloworld2.timemachine.latest_snapshot_seconds") (-1)
       [lit "env:home"]].
Proof. vm_compute. reflexivity. Qed.

(** C7. The freshness check and the UUID mount check send, on every
    host and for every instance, a heartbeat gauge of value 1 before
    anything else. *)
Theorem heartbeat_first (h : host) (i : instance) :
  (exists rest,
     Helloworld2TimeMachineLatestBackup.check h i
     = Gauge (lit "helloworld2.timemachine.latest_backup_heartbeat") 1
         (Helloworld2TimeMachineLatestBackup.tags_of i) :: rest)
  /\ (exists rest,
        Helloworld2TimeMachineMount.check h i
        = Gauge (lit "helloworld2.timemachine.heartbeat") 1
            (Helloworld2TimeMachineMount.tags_of i) :: rest).
Proof.
  split.
  - unfold Helloworld2TimeMachineLatestBackup.check.
    destruct (_get_latest_backup_age _ _ _) as [eb vb].
    destruct (_get_latest_snapshot_age _ _ _) as [es vs].
    eexists. reflexivity.
  - unfold Helloworld2TimeMachineMount.check.
    destruct (diskutil_info _ _); eexists; reflexivity.
Qed.

(** C3. When some line of the snapshot listing has, once trimmed, a
    timestamp token at its start, the timestamp selected is the trimmed
    text of the last such line in the order of the listing. *)
Theorem snapshot_latest_is_last_line (h : host) (out : str) :
  tmutil_listlocalsnapshotdates h = inr out ->
  (exists line, In line (split "010" out) /\ token_prefixed line) ->
  exists l1 line l2,
    split "010" out = l1 ++ line :: l2
    /\ token_prefixed line
    /\ (forall l, In l l2 -> ~ token_prefixed l)
    /\ latest_ts h = inr (strip line).
Proof.
  intros O (line0 & Hin & T0).
  destruct (last_kept (split "010" out)) as (l1 & line & l2 & E & K & N).
  { exists line0. split; [exact Hin|]. now apply keeps_token_prefixed. }
  exists l1, line, l2. split; [exact E|]. split; [now apply keeps_token_prefixed|].
  split.
  - intros l Hl T. apply keeps_token_prefixed in T. rewrite (N l Hl) in T.
    discriminate.
  - exact (latest_ts_last h out l1 line l2 O E K N).
Qed.

(** The listing of the specification: the second line is selected. *)
Lemma snapshot_latest_is_last_line_witness :
  tmutil_listlocalsnapshotdates sample_host
  = inr (lit "2025-09-30-012615" ++ nl ++ lit "2025-09-30-022615" ++ nl)
  /\ (exists line,
        In line (split "010" (lit "2025-09-30-012615" ++ nl
                              ++ lit "2025-09-30-022615" ++ nl))
        /\ token_prefixed line)
  /\ (exists l1 line l2,
        split "010" (lit "2025-09-30-012615" ++ nl ++ lit "2025-09-30-022615" ++ nl)
        = l1 ++ line :: l2
        /\ token_prefixed line
        /\ (forall l, In l l2 -> ~ token_prefixed l)
        /\ latest_ts sample_host = inr (strip line))
  /\ latest_ts sample_host = inr (lit "2025-09-30-022615").
Proof.
  assert (H : exists line,
             In line (split "010" (lit "2025-09-30-012615" ++ nl
                                   ++ lit "2025-09-30-022615" ++ nl))
             /\ token_prefixed line).
  { exists (lit "2025-09-30-022615"). split.
    - vm_compute. right. left. reflexivity.
    - apply keeps_token_prefixed. vm_compute. reflexivity. }
  split; [reflexivity|]. split; [exact H|]. split.
  - exact (snapshot_latest_is_last_line sample_host _ eq_refl H).
  - vm_compute. reflexivity.
Defined.

(** The selection follows the order of the lines, not the dates. *)
Example snapshot_latest_not_sorted :
  latest_ts reversed_host = inr (lit "2025-09-30-012615").
Proof. vm_compute. reflexivity. Qed.

(** C4 (as amended). When the mount table can be read, the check sends
    the gauge timemachine.disk_mounted and then the service check
    timemachine.disk.mounted, OK for 1 and CRITICAL for 0; the gauge is 1
    exactly when the mountpoint is a directory and some line of the table
    has the mountpoint with, on each side, a blank (U+0020) or the end of
    the line; it is 0 otherwise. *)
Theorem mounted_iff_directory_and_listed (h : host) (i : instance) (out : str) :
  mount_p h = inr out ->
  exists mounted,
    TimeMachineMountCheck.check h i =
      [Gauge (lit "timemachine.disk_mounted") mounted
         (TimeMachineMountCheck.tags_of i);
       ServiceCheck (lit "timemachine.disk.mounted")
         (if mounted =? 1 then OK else CRITICAL)
         (Some (if mounted =? 1 then lit "Time Machine disk is mounted"
                else lit "Time Machine disk is NOT mounted"))
         (TimeMachineMountCheck.tags_of i)]
    /\ (mounted = 1 \/ mounted = 0)
    /\ (mounted = 1 <->
        isdir h (mountpoint_of i) = true
        /\ exists line, In line (splitlines out)
                        /\ delimited_by is_blank (mountpoint_of i) line).
Proof.
  intros O. unfold TimeMachineMountCheck.check. rewrite O. cbn [bind ret].
  pose proof (scan_lines_spec (mountpoint_of i) (splitlines out)) as S.
  destruct (scan_lines_values (mountpoint_of i) (splitlines out)) as [V|V];
    rewrite V in *; destruct (isdir h (mountpoint_of i)); cbn [andb negb Z.eqb].
  - exists 1. split; [reflexivity|]. split; [now left|].
    split; [|reflexivity]. intros _. split; [reflexivity|]. now apply S.
  - exists 0. split; [reflexivity|]. split; [now right|].
    split; [discriminate|]. intros [F _]. discriminate.
  - exists 0. split; [reflexivity|]. split; [now right|].
    split; [discriminate|]. intros [_ F]. apply S in F. discriminate.
  - exists 0. split; [reflexivity|]. split; [now right|].
    split; [discriminate|]. intros [F _]. discriminate.
Qed.

(** The mount table of the specification, the directory present. *)
Lemma mounted_iff_directory_and_listed_witness :
  mount_p sample_host
  = inr (lit "/dev/disk2 on /Volumes/SEAGATE TIME MACHINE 5T (apfs)" ++ nl)
  /\ (exists mounted,
        TimeMachineMountCheck.check sample_host default_instance =
          [Gauge (lit "timemachine.disk_mounted") mounted
             (TimeMachineMountCheck.tags_of default_instance);
           ServiceCheck (lit "timemachine.disk.mounted")
             (if mounted =? 1 then OK else CRITICAL)
             (Some (if mounted =? 1 then lit "Time Machine disk is mounted"
                    else lit "Time Machine disk is NOT mounted"))
             (TimeMachineMountCheck.tags_of default_instance)]
        /\ (mounted = 1 \/ mounted = 0)
        /\ (mounted = 1 <->
            isdir sample_host (mountpoint_of default_instance) = true
            /\ exists line,
                In line (splitlines
                           (lit "/dev/disk2 on /Volumes/SEAGATE TIME MACHINE 5T (apfs)"
                            ++ nl))
                /\ delimited_by is_blank (mountpoint_of default_instance) line)).
Proof.
  split; [reflexivity|].
  exact (mounted_iff_directory_and_listed sample_host default_instance _ eq_refl).
Defined.

(** The two cases of the specification: the line matches, and the gauge
    follows the directory test. *)
Example mounted_when_directory_exists :
  TimeMachineMountCheck.check sample_host default_instance =
    [Gauge (lit "timemachine.disk_mounted") 1
       [lit "mountpoint:/Volumes/SEAGATE TIME MACHINE 5T"];
     ServiceCheck (lit "timemachine.disk.mounted") OK
       (Some (lit "Time Machine disk is mounted"))
       [lit "mountpoint:/Volumes/SEAGATE TIME MACHINE 5T"]].
Proof. vm_compute. reflexivity. Qed.

Example not_mounted_when_directory_missing :
  TimeMachineMountCheck.check unplugged_host default_instance =
    [Gauge (lit "timemachine.disk_mounted") 0
       [lit "mountpoint:/Volumes/SEAGATE TIME MACHINE 5T"];
     ServiceCheck (lit "timemachine.disk.mounted") CRITICAL
       (Some (lit "Time Machine disk is NOT mounted"))
       [lit "mountpoint:/Volumes/SEAGATE TIME MACHINE 5T"]].
Proof. vm_compute. reflexivity. Qed.

(** C4, as first stated, fails: in a mount table whose fields are
    separated by tabs the mountpoint stands between white space, the
    directory exists, and the gauge sent is 0. *)
Lemma tab_delimited_mountpoint_not_found :
  ~ (forall (h : host) (i : instance) (out : str),
       mount_p h = inr out ->
       (In (Gauge (lit "timemachine.disk_mounted") 1
              (TimeMachineMountCheck.tags_of i))
           (TimeMachineMountCheck.check h i)
        <-> isdir h (mountpoint_of i) = true
            /\ exists line, In line (splitlines out)
                            /\ delimited_by isspace (mountpoint_of i) line)).
Proof.
  intros C. specialize (C odd_host odd_instance _ eq_refl).
  destruct C as [_ C].
  assert (G : In (Gauge (lit "timemachine.disk_mounted") 1
                    (TimeMachineMountCheck.tags_of odd_instance))
                 (TimeMachineMountCheck.check odd_host odd_instance)).
  { apply C. split; [reflexivity|].
    exists (lit "/dev/disk2" ++ tab ++ lit "/mnt" ++ tab ++ lit "apfs"). split.
    - vm_compute. left. reflexivity.
    - exists (lit "/dev/disk2" ++ tab), (tab ++ lit "apfs").
      split; [reflexivity|]. split; right.
      + exists (lit "/dev/disk2"), "009"%char. split; reflexivity.
      + exists "009"%char, (lit "apfs"). split; reflexivity. }
  vm_compute in G. destruct G as [G|[G|[]]]; discriminate.
Qed.

(** C5. When the mount table cannot be read, the mountpoint check sends
    one emission only: the service check timemachine.mount.check,
    CRITICAL, with the text of the error; no gauge, and nothing under the
    name timemachine.disk.mounted. *)
Theorem mount_query_failure_is_critical (h : host) (i : instance) (e : exn) :
  mount_p h = inl e ->
  TimeMachineMountCheck.check h i =
    [ServiceCheck (lit "timemachine.mount.check") CRITICAL (Some (exn_str e))
       (TimeMachineMountCheck.tags_of i)]
  /\ filter is_gauge (TimeMachineMountCheck.check h i) = []
  /\ (forall x, In x (TimeMachineMountCheck.check h i) ->
                emission_name x <> lit "timemachine.disk.mounted").
Proof.
  intros O. unfold TimeMachineMountCheck.check. rewrite O. cbn [bind].
  split; [reflexivity|]. split; [reflexivity|].
  intros x [<-|[]]. vm_compute. discriminate.
Qed.

Lemma mount_query_failure_is_critical_witness :
  mount_p broken_host
  = inl (CommandError (lit "No such file or directory: /sbin/mount"))
  /\ TimeMachineMountCheck.check broken_host default_instance =
       [ServiceCheck (lit "timemachine.mount.check") CRITICAL
          (Some (lit "No such file or directory: /sbin/mount"))
          (TimeMachineMountCheck.tags_of default_instance)]
  /\ filter is_gauge (TimeMachineMountCheck.check broken_host default_instance) = []
  /\ (forall x, In x (TimeMachineMountCheck.check broken_host default_instance) ->
                emission_name x <> lit "timemachine.disk.mounted").
Proof.
  split; [reflexivity|].
  exact (mount_query_failure_is_critical broken_host default_instance _ eq_refl).
Defined.

(** C6. In the UUID mount check, when the disk query succeeds the
    presence gauge is 1 and the final service check is OK; when it raises
    [e], a CRITICAL service check helloworld2.timemachine.mount.check
    carries the text of [e], and the check goes on: it sends the presence
    gauge with 0 and the final service check
    helloworld2.timemachine.disk.mounted, CRITICAL, with the fixed
    message; in both cases the heartbeat of 1 comes first. *)
Theorem uuid_query_outcome (h : host) (i : instance) :
  let uuid := Helloworld2TimeMachineMount.volume_uuid_of i in
  let tags := Helloworld2TimeMachineMount.tags_of i in
  (forall out, diskutil_info h uuid = inr out ->
     Helloworld2TimeMachineMount.check h i =
       [Gauge (lit "helloworld2.timemachine.heartbeat") 1 tags;
        Gauge (lit "helloworld2.timemachine.disk_mounted") 1 tags;
        ServiceCheck (lit "helloworld2.timemachine.disk.mounted") OK
          (Some (lit "Time Machine disk is mounted")) tags])
  /\ (forall e, diskutil_info h uuid = inl e ->
        Helloworld2TimeMachineMount.check h i =
          [Gauge (lit "helloworld2.timemachine.heartbeat") 1 tags;
           ServiceCheck (lit "helloworld2.timemachine.mount.check") CRITICAL
             (Some (lit "diskutil info failed for UUID " ++ uuid
                    ++ lit ": " ++ exn_str e)) tags;
           Gauge (lit "helloworld2.timemachine.disk_mounted") 0 tags;
           ServiceCheck (lit "helloworld2.timemachine.disk.mounted") CRITICAL
             (Some (lit "Time Machine disk is NOT mounted")) tags]).
Proof.
  intros uuid tags. unfold Helloworld2TimeMachineMount.check.
  fold uuid. fold tags. split.
  - intros out E. rewrite E. reflexivity.
  - intros e E. rewrite E. reflexivity.
Qed.

(** The query fails for the default UUID. *)
Example uuid_query_raises :
  Helloworld2TimeMachineMount.check sample_host default_instance =
    [Gauge (lit "helloworld2.timemachine.heartbeat") 1
       [lit "volume_uuid:AC05F583-4BDF-498A-AB2D-AB5A307869EC"];
     ServiceCheck (lit "helloworld2.timemachine.mount.check") CRITICAL
       (Some (lit "diskutil info failed for UUID AC05F583-4BDF-498A-AB2D-AB5A307869EC: Command returned non-zero exit status 1."))
       [lit "volume_uuid:AC05F583-4BDF-498A-AB2D-AB5A307869EC"];
     Gauge (lit "helloworld2.timemachine.disk_mounted") 0
       [lit "volume_uuid:AC05F583-4BDF-498A-AB2D-AB5A307869EC"];
     ServiceCheck (lit "helloworld2.timemachine.disk.mounted") CRITICAL
       (Some (lit "Time Machine disk is NOT mounted"))
       [lit "volume_uuid:AC05F583-4BDF-498A-AB2D-AB5A307869EC"]].
Proof. vm_compute. reflexivity. Qed.

Example uuid_query_succeeds :
  Helloworld2TimeMachineMount.check odd_host default_instance =
    [Gauge (lit "helloworld2.timemachine.heartbeat") 1
       [lit "volume_uuid:AC05F583-4BDF-498A-AB2D-AB5A307869EC"];
     Gauge (lit "helloworld2.timemachine.disk_mounted") 1
       [lit "volume_uuid:AC05F583-4BDF-498A-AB2D-AB5A307869EC"];
     ServiceCheck (lit "helloworld2.timemachine.disk.mounted") OK
       (Some (lit "Time Machine disk is mounted"))
       [lit "volume_uuid:AC05F583-4BDF-498A-AB2D-AB5A307869EC"]].
Proof. vm_compute. reflexivity. Qed.

(** C8 (as amended). Every emission of the UUID mount check carries the
    configured tags followed by the one tag volume_uuid:<uuid>; every
    emission of the mountpoint check carries the configured tags followed
    by the one tag mountpoint:<path>; every emission of the freshness
    check carries the configured tags and nothing more. *)
Theorem emission_tags_by_check (h : host) (i : instance) :
  Forall (fun e => emission_tags e
                   = get (opt_tags i) [] ++ [lit "volume_uuid:" ++ Helloworld2TimeMachineMount.volume_uuid_of i])
         (Helloworld2TimeMachineMount.check h i)
  /\ Forall (fun e => emission_tags e
                      = get (opt_tags i) [] ++ [lit "mountpoint:" ++ mountpoint_of i])
            (TimeMachineMountCheck.check h i)
  /\ Forall (fun e => emission_tags e = get (opt_tags i) [])
            (Helloworld2TimeMachineLatestBackup.check h i).
Proof.
  split; [|split].
  - unfold Helloworld2TimeMachineMount.check.
    destruct (diskutil_info h (Helloworld2TimeMachineMount.volume_uuid_of i)); repeat constructor.
  - unfold TimeMachineMountCheck.check.
    destruct (mount_p h); cbn [bind ret]; repeat constructor.
  - unfold Helloworld2TimeMachineLatestBackup.check,
      _get_latest_backup_age, _get_latest_snapshot_age.
    destruct (backup_dt h); destruct (snapshot_dt h); cbn [bind ret];
      repeat constructor.
Qed.

(** C8, as first stated, fails: the freshness check appends no tag of
    its own; without configured tags its heartbeat carries none. *)
Lemma freshness_tags_have_no_derived_tag :
  ~ (forall (h : host) (i : instance) (e : emission),
       In e (Helloworld2TimeMachineLatestBackup.check h i) ->
       exists derived, emission_tags e = get (opt_tags i) [] ++ [derived]).
Proof.
  intros C.
  destruct (C sample_host default_instance
              (Gauge (lit "helloworld2.timemachine.latest_backup_heartbeat") 1 []))
    as (derived & E).
  - vm_compute. left. reflexivity.
  - discriminate E.
Qed.

(** C9. When the output of the backup query has a timestamp token
    somewhere, the routine takes the leftmost one: no token starts before
    it; it parses that token with the format of the check, which gives
    the instant whose fields the token spells out, or an error when they
    are no date or time. *)
Theorem backup_first_token_parsed (h : host) (out : str) :
  tmutil_latestbackup h = inr out ->
  (exists pre m post, out = pre ++ m ++ post /\ is_token m) ->
  exists pre ts post,
    out = pre ++ ts ++ post
    /\ is_token ts
    /\ (forall pre' m' post',
          out = pre' ++ m' ++ post' -> is_token m' ->
          (length pre <= length pre')%nat)
    /\ re_search TM_TS_RE (strip out) = Some ts
    /\ backup_dt h = host_strptime h ts
    /\ backup_dt h
       = if valid (token_datetime ts) then inr (token_datetime ts)
         else inl (ValueError (strptime_error_text h ts)).
Proof.
  intros O (pre0 & m0 & post0 & E0 & T0).
  destruct (re_search_finds TS_PATTERN out pre0 m0 post0 E0 T0) as (ts & S).
  destruct (re_search_leftmost TS_PATTERN out ts S) as (pre & post & E & T & L).
  exists pre, ts, post. split; [exact E|]. split; [exact T|]. split; [exact L|].
  assert (S' : re_search TM_TS_RE (strip out) = Some ts)
    by (unfold TM_TS_RE; now rewrite re_search_strip).
  split; [exact S'|].
  assert (B : backup_dt h = host_strptime h ts)
    by (unfold backup_dt; rewrite O; cbn [bind]; now rewrite S').
  split; [exact B|].
  rewrite B. unfold host_strptime. rewrite (strptime_token ts T).
  now destruct (valid (token_datetime ts)).
Qed.

(** The output of the specification: the token found and the instant it
    parses to. *)
Lemma backup_first_token_parsed_witness :
  tmutil_latestbackup sample_host
  = inr (lit "/Volumes/.timemachine/ABCD/2025-09-30-012615.backup/..." ++ nl)
  /\ (exists pre m post,
        lit "/Volumes/.timemachine/ABCD/2025-09-30-012615.backup/..." ++ nl
        = pre ++ m ++ post /\ is_token m)
  /\ (exists pre ts post,
        lit "/Volumes/.timemachine/ABCD/2025-09-30-012615.backup/..." ++ nl
        = pre ++ ts ++ post
        /\ is_token ts
        /\ (forall pre' m' post',
              lit "/Volumes/.timemachine/ABCD/2025-09-30-012615.backup/..." ++ nl
              = pre' ++ m' ++ post' -> is_token m' ->
              (length pre <= length pre')%nat)
        /\ re_search TM_TS_RE
             (strip (lit "/Volumes/.timemachine/ABCD/2025-09-30-012615.backup/..."
                     ++ nl))
           = Some ts
        /\ backup_dt sample_host = host_strptime sample_host ts
        /\ backup_dt sample_host
           = if valid (token_datetime ts) then inr (token_datetime ts)
             else inl (ValueError (strptime_error_text sample_host ts)))
  /\ re_search TM_TS_RE
       (strip (lit "/Volumes/.timemachine/ABCD/2025-09-30-012615.backup/..." ++ nl))
     = Some (lit "2025-09-30-012615")
  /\ backup_dt sample_host = inr (mk_datetime 2025 9 30 1 26 15 0).
Proof.
  assert (H : exists pre m post,
             lit "/Volumes/.timemachine/ABCD/2025-09-30-012615.backup/..." ++ nl
             = pre ++ m ++ post /\ is_token m).
  { exists (lit "/Volumes/.timemachine/ABCD/"), (lit "2025-09-30-012615"),
      (lit ".backup/..." ++ nl).
    split; [reflexivity|]. apply is_token_by_match. vm_compute. reflexivity. }
  split; [reflexivity|]. split; [exact H|]. split.
  - exact (backup_first_token_parsed sample_host _ eq_refl H).
  - split; vm_compute; reflexivity.
Defined.

(** C10. The snapshot routine keeps the whole trimmed text of every line
    that starts with a timestamp token, and parses the whole text of the
    last one; when text follows the token there, parsing fails and the
    routine sends CRITICAL and returns -1, whatever the lines before. *)
Theorem snapshot_trailing_text_is_critical
    (h : host) (tags : list str) (now : datetime) (out : str)
    (l1 : list str) (line : str) (l2 : list str) (tok rest : str) :
  tmutil_listlocalsnapshotdates h = inr out ->
  split "010" out = l1 ++ line :: l2 ->
  strip line = tok ++ rest -> is_token tok -> rest <> [] ->
  (forall l, In l l2 -> ~ token_prefixed l) ->
  (forall l, In l (split "010" out) -> token_prefixed l ->
             In (strip l) (timestamps_of (strip out)))
  /\ latest_ts h = inr (strip line)
  /\ _get_latest_snapshot_age h tags now =
       ([ServiceCheck (lit "helloworld2.timemachine.latest_snapshot") CRITICAL
           (Some (strptime_error_text h (strip line))) tags],
        -1)
  /\ (forall i, exists before,
        Helloworld2TimeMachineLatestBackup.check h i =
          before
          ++ [ServiceCheck (lit "helloworld2.timemachine.latest_snapshot")
                CRITICAL (Some (strptime_error_text h (strip line)))
                (Helloworld2TimeMachineLatestBackup.tags_of i);
              Gauge (lit "helloworld2.timemachine.latest_snapshot_seconds") (-1)
                (Helloworld2TimeMachineLatestBackup.tags_of i)]).
Proof.
  intros O E S T R N.
  assert (K : keeps line = true)
    by (apply keeps_token_prefixed; now exists tok, rest).
  assert (N' : forall l, In l l2 -> keeps l = false).
  { intros l Hl. destruct (keeps l) eqn:Kl; [|reflexivity].
    exfalso. apply (N l Hl). now apply keeps_token_prefixed. }
  pose proof (latest_ts_last h out l1 line l2 O E K N') as L.
  split; [|split; [exact L|]].
  - intros l Hl Tl. unfold timestamps_of. rewrite strip_idempotent.
    change (select (split "010" (strip out))) with (timestamps_of out).
    rewrite timestamps_of_lines. unfold select. apply in_map.
    apply filter_In. split; [exact Hl|]. now apply keeps_token_prefixed.
  - assert (A : forall tg nw,
               _get_latest_snapshot_age h tg nw =
                 ([ServiceCheck (lit "helloworld2.timemachine.latest_snapshot")
                     CRITICAL (Some (strptime_error_text h (strip line))) tg],
                  -1)).
    { intros tg nw. unfold _get_latest_snapshot_age, snapshot_dt.
      rewrite L. cbn [bind ret]. unfold host_strptime.
      rewrite S, (strptime_trailing tok rest T R). reflexivity. }
    split; [apply A|].
    intros i. unfold Helloworld2TimeMachineLatestBackup.check. rewrite A.
    destruct (_get_latest_backup_age _ _ _) as [eb vb].
    eexists. rewrite !app_assoc. rewrite <- app_assoc. reflexivity.
Qed.

(** A bare timestamp, then a line with [.backup] after its token. *)
Lemma snapshot_trailing_text_is_critical_witness :
  tmutil_listlocalsnapshotdates odd_host
  = inr (lit "2025-09-30-012615" ++ nl ++ lit "2025-09-30-022615.backup" ++ nl)
  /\ split "010" (lit "2025-09-30-012615" ++ nl
                  ++ lit "2025-09-30-022615.backup" ++ nl)
     = [lit "2025-09-30-012615"] ++ lit "2025-09-30-022615.backup" :: [[]]
  /\ strip (lit "2025-09-30-022615.backup")
     = lit "2025-09-30-022615" ++ lit ".backup"
  /\ is_token (lit "2025-09-30-022615")
  /\ lit ".backup" <> []
  /\ (forall l, In l [[]] -> ~ token_prefixed l)
  /\ latest_ts odd_host = inr (lit "2025-09-30-022615.backup")
  /\ _get_latest_snapshot_age odd_host [] (datetime_now odd_host) =
       ([ServiceCheck (lit "helloworld2.timemachine.latest_snapshot") CRITICAL
           (Some (lit "unconverted data remains: 2025-09-30-022615.backup")) []],
        -1)
  /\ (forall i, exists before,
        Helloworld2TimeMachineLatestBackup.check odd_host i =
          before
          ++ [ServiceCheck (lit "helloworld2.timemachine.latest_snapshot")
                CRITICAL
                (Some (lit "unconverted data remains: 2025-09-30-022615.backup"))
                (Helloworld2TimeMachineLatestBackup.tags_of i);
              Gauge (lit "helloworld2.timemachine.latest_snapshot_seconds") (-1)
                (Helloworld2TimeMachineLatestBackup.tags_of i)]).
Proof.
  assert (T : is_token (lit "2025-09-30-022615"))
    by (apply is_token_by_match; vm_compute; reflexivity).
  assert (R : lit ".backup" <> []) by discriminate.
  assert (N : forall l : str, In l [[]] -> ~ token_prefixed l).
  { intros l [<-|[]] K. apply keeps_token_prefixed in K. discriminate K. }
  split; [reflexivity|]. split; [reflexivity|]. split; [reflexivity|].
  split; [exact T|]. split; [exact R|]. split; [exact N|].
  exact (proj2 (snapshot_trailing_text_is_critical odd_host []
                  (datetime_now odd_host) _
                  [lit "2025-09-30-012615"] (lit "2025-09-30-022615.backup") [[]]
                  (lit "2025-09-30-022615") (lit ".backup")
                  eq_refl eq_refl eq_refl T R N)).
Defined.

(** An empty or blank snapshot listing: heartbeat, then CRITICAL and -1
    for the snapshot. *)
Example empty_listing_is_critical :
  Helloworld2TimeMachineLatestBackup.check empty_listing_host default_instance =
    [Gauge (lit "helloworld2.timemachine.latest_backup_heartbeat") 1 [];
     ServiceCheck (lit "helloworld2.timemachine.latest_backup") OK None [];
     Gauge (lit "helloworld2.timemachine.latest_backup_seconds") 5625 [];
     ServiceCheck (lit "helloworld2.timemachine.latest_snapshot") CRITICAL
       (Some (lit "No local snapshots found")) [];
     Gauge (lit "helloworld2.timemachine.latest_snapshot_seconds") (-1) []].
Proof. vm_compute. reflexivity. Qed.

(** ** Further facts about strings and matching *)

Lemma lstrip_nil_blank s : lstrip s = [] <-> blank s.
Proof.
  unfold blank. induction s as [|c s IH]; simpl.
  - split; [constructor | reflexivity].
  - destruct (isspace c) eqn:E.
    + rewrite IH. split; [now constructor | now inversion 1].
    + split; [discriminate | inversion 1; congruence].
Qed.

Lemma lstrip_head s : match lstrip s with [] => True | c :: _ => isspace c = false end.
Proof.
  induction s as [|c s IH]; simpl; [exact I|].
  destruct (isspace c) eqn:E; [exact IH | exact E].
Qed.

(** Trimming leaves nothing exactly when the text is blank. *)
Lemma strip_nil_blank s : strip s = [] <-> blank s.
Proof.
  split.
  - unfold strip, rstrip. intros E. apply lstrip_nil_blank.
    assert (R : lstrip (rev (lstrip s)) = []).
    { rewrite <- (rev_involutive (lstrip (rev (lstrip s)))), E. reflexivity. }
    apply lstrip_nil_blank in R. unfold blank in R.
    pose proof (lstrip_head s) as Hd.
    destruct (lstrip s) as [|c u]; [reflexivity|].
    apply Forall_rev in R. rewrite rev_involutive in R.
    inversion R; congruence.
  - intros B. unfold strip. apply lstrip_nil_blank in B. now rewrite B.
Qed.

Lemma strip_app_blank w1 s w2 : blank w1 -> blank w2 -> strip (w1 ++ s ++ w2) = strip s.
Proof.
  intros B1 B2. induction B1 as [|c w1 Hc _ IH].
  - simpl. unfold blank in B2. induction w2 as [|c w2 IH] using rev_ind.
    + now rewrite app_nil_r.
    + apply Forall_app in B2. destruct B2 as [B2 Bc]. inversion Bc; subst.
      rewrite app_assoc. rewrite strip_snoc_space by assumption. now apply IH.
  - simpl. now rewrite strip_cons_space.
Qed.

Lemma re_search_none p s :
  re_search p s = None
  <-> forall pre m post, s = pre ++ m ++ post -> ~ matches p m.
Proof.
  split.
  - intros E pre m post Es M.
    destruct (re_search_finds p s pre m post Es M) as (ts & F). congruence.
  - intros N. destruct (re_search p s) as [ts|] eqn:E; [|reflexivity].
    destruct (re_search_leftmost p s ts E) as (pre & post & Es & M & _).
    exfalso. exact (N pre ts post Es M).
Qed.

Lemma splitlines_no_linebreak s l : In l (splitlines s) -> no_linebreak l.
Proof.
  unfold no_linebreak.
  assert (G : forall n s, (length s <= n)%nat ->
                          forall l, In l (splitlines s) ->
                                    Forall (fun c => is_linebreak c = false) l).
  { clear s l. induction n as [|n IH]; intros s Hn l Hin.
    - destruct s; [destruct Hin | simpl in Hn; lia].
    - destruct s as [|c s]; [destruct Hin|]. simpl in Hn.
      simpl in Hin. destruct (is_linebreak c) eqn:B.
      + destruct Hin as [<-|Hin]; [constructor|].
        destruct s as [|c' s']; [destruct Hin|]. simpl in Hn.
        destruct ((ord c =? 13) && (ord c' =? 10)).
        * apply (IH s'); [lia | exact Hin].
        * apply (IH (c' :: s')); [simpl; lia | exact Hin].
      + destruct (splitlines s) as [|x xs] eqn:E.
        * destruct Hin as [<-|[]]. now repeat constructor.
        * destruct Hin as [<-|Hin].
          -- constructor; [exact B|]. apply (IH s); [lia|].
             rewrite E. now left.
          -- apply (IH s); [lia|]. rewrite E. now right. }
  exact (G (length s) s (le_n _) l).
Qed.

Lemma splitlines_line eol l rest :
  eol = nl \/ eol = crlf -> no_linebreak l ->
  splitlines (l ++ eol ++ rest) = l :: splitlines rest.
Proof.
  intros Heol N. induction N as [|c l Hc _ IH].
  - destruct Heol as [->| ->]; simpl; [|reflexivity].
    destruct rest; reflexivity.
  - simpl. rewrite Hc, IH. reflexivity.
Qed.

(** Lines without line boundaries come back from their text, whether
    they end with LF or with CR LF. *)
Lemma splitlines_unlines eol ls :
  eol = nl \/ eol = crlf -> Forall no_linebreak ls ->
  splitlines (unlines eol ls) = ls.
Proof.
  intros Heol N. induction N as [|l ls Hl _ IH]; [reflexivity|].
  unfold unlines in *. simpl. rewrite <- app_assoc.
  rewrite (splitlines_line eol l _ Heol Hl). now rewrite IH.
Qed.

(** ** Further facts about time spans *)

Lemma quotient_exponent_negative a b :
  0 < a -> 0 < b -> a < 2 ^ 52 * b -> quotient_exponent a b < 0.
Proof.
  intros Ha Hb Hlt.
  pose proof (quotient_exponent_lower a b Ha Hb) as L. cbv zeta in L.
  set (e := quotient_exponent a b) in *.
  destruct (Z.le_gt_cases 0 e) as [P|P]; [|exact P].
  exfalso. unfold scaled_den, scaled_num in L.
  rewrite (Z.max_r 0 e) in L by lia. rewrite (Z.max_l 0 (- e)) in L by lia.
  pose proof (Z.pow_pos_nonneg 2 e ltac:(lia) ltac:(lia)).
  change (2 ^ 0) with 1 in L. nia.
Qed.

(** Truncating the rounded quotient gives the floor or one more. *)
Lemma trunc_true_divide_near a :
  0 <= a < 2 ^ 52 * 1000000 ->
  a / 1000000 <= trunc (true_divide a 1000000) <= a / 1000000 + 1.
Proof.
  intros [Ha Hlt]. unfold true_divide.
  destruct (Z.eqb_spec a 0) as [->|Hne]; [cbn; lia|].
  rewrite Z.abs_eq by lia.
  assert (Hpos : 0 < a) by lia.
  pose proof (quotient_exponent_negative a 1000000 Hpos ltac:(lia) Hlt) as He.
  set (e := quotient_exponent a 1000000) in *.
  unfold trunc. cbn [fneg fmant fexp].
  destruct (Z.ltb_spec a 0); [lia|].
  destruct (Z.leb_spec 0 e); [lia|]. cbv iota.
  unfold scaled_num, scaled_den.
  rewrite (Z.max_r 0 (- e)) by lia. rewrite (Z.max_l 0 e) by lia.
  change (2 ^ 0) with 1. rewrite Z.mul_1_r.
  set (P := 2 ^ (- e)).
  assert (HP : 0 < P) by (apply Z.pow_pos_nonneg; lia).
  pose proof (round_half_even_bounds (a * P) 1000000 ltac:(lia)) as R.
  set (m := round_half_even (a * P) 1000000) in *.
  pose proof (Z.div_mod a 1000000 ltac:(lia)) as D.
  pose proof (Z.mod_pos_bound a 1000000 ltac:(lia)) as B.
  set (q := a / 1000000) in *. set (r := a mod 1000000) in *.
  split.
  - apply Z.div_le_lower_bound; [exact HP|]. nia.
  - assert (m / P < q + 2); [|lia].
    apply Z.div_lt_upper_bound; [exact HP|]. nia.
Qed.

Lemma DAYS_BEFORE_MONTH_bounds m : 1 <= m <= 12 -> 0 <= DAYS_BEFORE_MONTH m <= 334.
Proof.
  intros H.
  assert (C : m = 1 \/ m = 2 \/ m = 3 \/ m = 4 \/ m = 5 \/ m = 6 \/ m = 7
              \/ m = 8 \/ m = 9 \/ m = 10 \/ m = 11 \/ m = 12) by lia.
  repeat (destruct C as [->|C]; [vm_compute; split; discriminate|]).
  subst. vm_compute. split; discriminate.
Qed.

(** A valid instant lies within the 9999 years of the calendar. *)
Lemma micros_bounds t :
  valid t = true -> 0 <= micros t < 9999 * 366 * 86400 * 1000000.
Proof.
  unfold valid, check_date_fields, check_time_fields.
  rewrite !andb_true_iff, !Z.leb_le. intros V.
  pose proof (days_in_month_le (year t) (month t)) as Dm.
  pose proof (DAYS_BEFORE_MONTH_bounds (month t) ltac:(lia)) as Db.
  unfold micros, toordinal, ymd2ord, days_before_year, days_before_month.
  cbv zeta.
  assert (L : 0 <= (if (2 <? month t) && is_leap (year t) then 1 else 0) <= 1)
    by (destruct ((2 <? month t) && is_leap (year t)); lia).
  pose proof (Z.div_pos (year t - 1) 4 ltac:(lia) ltac:(lia)).
  pose proof (Z.div_pos (year t - 1) 100 ltac:(lia) ltac:(lia)).
  pose proof (Z.div_pos (year t - 1) 400 ltac:(lia) ltac:(lia)).
  pose proof (Z.div_le_mono (year t - 1) 9998 4 ltac:(lia) ltac:(lia)).
  pose proof (Z.div_le_mono (year t - 1) 9998 400 ltac:(lia) ltac:(lia)).
  assert (Z.div (year t - 1) 100 <= Z.div (year t - 1) 4).
  { apply Z.div_le_compat_l; lia. }
  change (9998 / 4) with 2499 in *. change (9998 / 400) with 24 in *.
  lia.
Qed.

(** ** Further properties *)

(** X1. A snapshot listing that is empty or blank makes the snapshot
    routine send CRITICAL with the message "No local snapshots found" and
    return -1. *)
Theorem snapshot_blank_output_message
    (h : host) (tags : list str) (now : datetime) (out : str) :
  tmutil_listlocalsnapshotdates h = inr out ->
  blank out ->
  _get_latest_snapshot_age h tags now =
    ([ServiceCheck (lit "helloworld2.timemachine.latest_snapshot") CRITICAL
        (Some (lit "No local snapshots found")) tags],
     -1).
Proof.
  intros O B. apply strip_nil_blank in B.
  unfold _get_latest_snapshot_age, snapshot_dt, latest_ts.
  rewrite O. cbn [bind]. rewrite B. reflexivity.
Qed.

Lemma snapshot_blank_output_message_witness :
  tmutil_listlocalsnapshotdates empty_listing_host = inr (lit " " ++ nl)
  /\ blank (lit " " ++ nl)
  /\ _get_latest_snapshot_age empty_listing_host [] (datetime_now empty_listing_host) =
       ([ServiceCheck (lit "helloworld2.timemachine.latest_snapshot") CRITICAL
           (Some (lit "No local snapshots found")) []],
        -1).
Proof.
  assert (B : blank (lit " " ++ nl)) by (repeat constructor).
  split; [reflexivity|]. split; [exact B|].
  exact (snapshot_blank_output_message empty_listing_host [] _ _ eq_refl B).
Defined.

(** X2. A snapshot listing that is not blank but has no line starting,
    once trimmed, with a timestamp token makes the snapshot routine send
    CRITICAL with the message "No valid timestamps in local snapshots
    output" and return -1. *)
Theorem snapshot_without_timestamp_lines
    (h : host) (tags : list str) (now : datetime) (out : str) :
  tmutil_listlocalsnapshotdates h = inr out ->
  ~ blank out ->
  (forall line, In line (split "010" out) -> ~ token_prefixed line) ->
  _get_latest_snapshot_age h tags now =
    ([ServiceCheck (lit "helloworld2.timemachine.latest_snapshot") CRITICAL
        (Some (lit "No valid timestamps in local snapshots output")) tags],
     -1).
Proof.
  intros O B N.
  assert (Ne : strip out <> [])
    by (intros E; apply B; now apply strip_nil_blank).
  assert (T : timestamps_of (strip out) = []).
  { unfold timestamps_of. rewrite strip_idempotent.
    change (select (split "010" (strip out))) with (timestamps_of out).
    rewrite timestamps_of_lines. apply select_none. intros l Hl.
    destruct (keeps l) eqn:K; [|reflexivity].
    exfalso. apply (N l Hl). now apply keeps_token_prefixed. }
  unfold _get_latest_snapshot_age, snapshot_dt, latest_ts.
  rewrite O. cbn [bind].
  destruct (strip out) as [|c o]; [congruence|]. rewrite T. reflexivity.
Qed.

Lemma snapshot_without_timestamp_lines_witness :
  tmutil_listlocalsnapshotdates headers_only_host
  = inr (lit "Snapshot dates for disk /:" ++ nl ++ lit "(none)" ++ nl)
  /\ ~ blank (lit "Snapshot dates for disk /:" ++ nl ++ lit "(none)" ++ nl)
  /\ (forall line,
        In line (split "010" (lit "Snapshot dates for disk /:" ++ nl
                              ++ lit "(none)" ++ nl)) ->
        ~ token_prefixed line)
  /\ _get_latest_snapshot_age headers_only_host []
       (datetime_now headers_only_host) =
       ([ServiceCheck (lit "helloworld2.timemachine.latest_snapshot") CRITICAL
           (Some (lit "No valid timestamps in local snapshots output")) []],
        -1).
Proof.
  assert (B : ~ blank (lit "Snapshot dates for disk /:" ++ nl
                       ++ lit "(none)" ++ nl)).
  { intros F. inversion F as [|c l Hc _]. discriminate Hc. }
  assert (N : forall line,
             In line (split "010" (lit "Snapshot dates for disk /:" ++ nl
                                   ++ lit "(none)" ++ nl)) ->
             ~ token_prefixed line).
  { intros line Hin K. apply keeps_token_prefixed in K. vm_compute in Hin.
    destruct Hin as [<-|[<-|[<-|[]]]]; discriminate K. }
  split; [reflexivity|]. split; [exact B|]. split; [exact N|].
  exact (snapshot_without_timestamp_lines headers_only_host [] _ _ eq_refl B N).
Defined.

(** X3. When the output of the backup query has no timestamp token
    anywhere, the backup routine sends CRITICAL with the message "Could
    not find a Time Machine timestamp in output: " followed by the trimmed
    output, and returns -1. *)
Theorem backup_without_token
    (h : host) (tags : list str) (now : datetime) (out : str) :
  tmutil_latestbackup h = inr out ->
  (forall pre m post, out = pre ++ m ++ post -> ~ is_token m) ->
  _get_latest_backup_age h tags now =
    ([ServiceCheck (lit "helloworld2.timemachine.latest_backup") CRITICAL
        (Some (lit "Could not find a Time Machine timestamp in output: "
               ++ strip out)) tags],
     -1).
Proof.
  intros O N. apply re_search_none in N. rewrite <- re_search_strip in N.
  unfold _get_latest_backup_age, backup_dt, TM_TS_RE.
  rewrite O. cbn [bind]. rewrite N. reflexivity.
Qed.

Lemma backup_without_token_witness :
  tmutil_latestbackup headers_only_host
  = inr (lit "No backups found for host." ++ nl)
  /\ (forall pre m post,
        lit "No backups found for host." ++ nl = pre ++ m ++ post ->
        ~ is_token m)
  /\ _get_latest_backup_age headers_only_host [] (datetime_now headers_only_host) =
       ([ServiceCheck (lit "helloworld2.timemachine.latest_backup") CRITICAL
           (Some (lit "Could not find a Time Machine timestamp in output: No backups found for host."))
           []],
        -1).
Proof.
  assert (N : forall pre m post,
             lit "No backups found for host." ++ nl = pre ++ m ++ post ->
             ~ is_token m).
  { apply re_search_none. vm_compute. reflexivity. }
  split; [reflexivity|]. split; [exact N|].
  exact (backup_without_token headers_only_host [] _ _ eq_refl N).
Defined.

(** X4. Blanks before and after the output of the backup query change
    nothing of what the backup routine sends and returns. *)
Theorem backup_ignores_surrounding_blanks
    (h1 h2 : host) (tags : list str) (now : datetime) (out w1 w2 : str) :
  tmutil_latestbackup h1 = inr out ->
  tmutil_latestbackup h2 = inr (w1 ++ out ++ w2) ->
  blank w1 -> blank w2 ->
  (forall data, strptime_error_text h1 data = strptime_error_text h2 data) ->
  _get_latest_backup_age h1 tags now = _get_latest_backup_age h2 tags now.
Proof.
  intros O1 O2 B1 B2 Ht.
  assert (E : backup_dt h1 = backup_dt h2).
  { unfold backup_dt. rewrite O1, O2. cbn [bind].
    rewrite (strip_app_blank w1 out w2 B1 B2).
    destruct (re_search TM_TS_RE (strip out)); [|reflexivity].
    unfold host_strptime. now rewrite Ht. }
  unfold _get_latest_backup_age. now rewrite E.
Qed.

Lemma backup_ignores_surrounding_blanks_witness :
  tmutil_latestbackup sample_host
  = inr (lit "/Volumes/.timemachine/ABCD/2025-09-30-012615.backup/..." ++ nl)
  /\ tmutil_latestbackup padded_host
     = inr ((nl ++ lit "  ")
            ++ (lit "/Volumes/.timemachine/ABCD/2025-09-30-012615.backup/..." ++ nl)
            ++ (tab ++ nl))
  /\ blank (nl ++ lit "  ") /\ blank (tab ++ nl)
  /\ (forall data,
        strptime_error_text sample_host data = strptime_error_text padded_host data)
  /\ _get_latest_backup_age sample_host [] (datetime_now sample_host)
     = _get_latest_backup_age padded_host [] (datetime_now sample_host).
Proof.
  assert (B1 : blank (nl ++ lit "  ")) by (repeat constructor).
  assert (B2 : blank (tab ++ nl)) by (repeat constructor).
  split; [reflexivity|]. split; [reflexivity|].
  split; [exact B1|]. split; [exact B2|]. split; [reflexivity|].
  exact (backup_ignores_surrounding_blanks sample_host padded_host []
           (datetime_now sample_host)
           (lit "/Volumes/.timemachine/ABCD/2025-09-30-012615.backup/..." ++ nl)
           (nl ++ lit "  ") (tab ++ nl)
           eq_refl eq_refl B1 B2 (fun _ => eq_refl)).
Defined.

(** X5. Blanks and blank lines before and after the snapshot listing
    change nothing of what the snapshot routine sends and returns. *)
Theorem snapshot_ignores_surrounding_blanks
    (h1 h2 : host) (tags : list str) (now : datetime) (out w1 w2 : str) :
  tmutil_listlocalsnapshotdates h1 = inr out ->
  tmutil_listlocalsnapshotdates h2 = inr (w1 ++ out ++ w2) ->
  blank w1 -> blank w2 ->
  (forall data, strptime_error_text h1 data = strptime_error_text h2 data) ->
  _get_latest_snapshot_age h1 tags now = _get_latest_snapshot_age h2 tags now.
Proof.
  intros O1 O2 B1 B2 Ht.
  assert (E : snapshot_dt h1 = snapshot_dt h2).
  { unfold snapshot_dt, latest_ts. rewrite O1, O2. cbn [bind].
    rewrite (strip_app_blank w1 out w2 B1 B2).
    destruct (strip out) as [|c o]; [reflexivity|].
    destruct (timestamps_of (c :: o)) as [|y ys]; [reflexivity|].
    unfold ret, bind, host_strptime. now rewrite Ht. }
  unfold _get_latest_snapshot_age. now rewrite E.
Qed.

Lemma snapshot_ignores_surrounding_blanks_witness :
  tmutil_listlocalsnapshotdates sample_host
  = inr (lit "2025-09-30-012615" ++ nl ++ lit "2025-09-30-022615" ++ nl)
  /\ tmutil_listlocalsnapshotdates padded_host
     = inr ((lit " " ++ nl)
            ++ (lit "2025-09-30-012615" ++ nl ++ lit "2025-09-30-022615" ++ nl)
            ++ (nl ++ lit "  "))
  /\ blank (lit " " ++ nl) /\ blank (nl ++ lit "  ")
  /\ (forall data,
        strptime_error_text sample_host data = strptime_error_text padded_host data)
  /\ _get_latest_snapshot_age sample_host [] (datetime_now sample_host)
     = _get_latest_snapshot_age padded_host [] (datetime_now sample_host).
Proof.
  assert (B1 : blank (lit " " ++ nl)) by (repeat constructor).
  assert (B2 : blank (nl ++ lit "  ")) by (repeat constructor).
  split; [reflexivity|]. split; [reflexivity|].
  split; [exact B1|]. split; [exact B2|]. split; [reflexivity|].
  exact (snapshot_ignores_surrounding_blanks sample_host padded_host []
           (datetime_now sample_host)
           (lit "2025-09-30-012615" ++ nl ++ lit "2025-09-30-022615" ++ nl)
           (lit " " ++ nl) (nl ++ lit "  ")
           eq_refl eq_refl B1 B2 (fun _ => eq_refl)).
Defined.

(** X6. The snapshot routine succeeds exactly when the last line that
    starts, once trimmed, with a timestamp token is, once trimmed, a token
    and nothing more, with fields that are a date and a time: then it
    sends OK and returns the age of the instant the token names; in every
    other case it sends CRITICAL with the parser's text and returns -1. *)
Theorem snapshot_ok_iff_bare_valid_token
    (h : host) (tags : list str) (now : datetime) (out : str)
    (l1 : list str) (line : str) (l2 : list str) :
  tmutil_listlocalsnapshotdates h = inr out ->
  split "010" out = l1 ++ line :: l2 ->
  token_prefixed line ->
  (forall l, In l l2 -> ~ token_prefixed l) ->
  (is_token (strip line) /\ valid (token_datetime (strip line)) = true ->
   _get_latest_snapshot_age h tags now =
     ([ServiceCheck (lit "helloworld2.timemachine.latest_snapshot") OK None tags],
      age_seconds now (token_datetime (strip line))))
  /\ (~ (is_token (strip line) /\ valid (token_datetime (strip line)) = true) ->
      _get_latest_snapshot_age h tags now =
        ([ServiceCheck (lit "helloworld2.timemachine.latest_snapshot") CRITICAL
            (Some (strptime_error_text h (strip line))) tags],
         -1)).
Proof.
  intros O E T N.
  assert (K : keeps line = true) by now apply keeps_token_prefixed.
  assert (N' : forall l, In l l2 -> keeps l = false).
  { intros l Hl. destruct (keeps l) eqn:Kl; [|reflexivity].
    exfalso. apply (N l Hl). now apply keeps_token_prefixed. }
  pose proof (latest_ts_last h out l1 line l2 O E K N') as L.
  assert (A : _get_latest_snapshot_age h tags now =
              match strptime (strip line) with
              | Some t =>
                  ([ServiceCheck (lit "helloworld2.timemachine.latest_snapshot")
                      OK None tags], age_seconds now t)
              | None =>
                  ([ServiceCheck (lit "helloworld2.timemachine.latest_snapshot")
                      CRITICAL (Some (strptime_error_text h (strip line))) tags],
                   -1)
              end).
  { unfold _get_latest_snapshot_age, snapshot_dt. rewrite L. cbn [bind ret].
    unfold host_strptime. now destruct (strptime (strip line)). }
  rewrite A. split.
  - intros [Tk V]. now rewrite (strptime_token _ Tk), V.
  - intros Not. destruct T as (tok & rest & Es & Tk).
    destruct rest as [|c rest].
    + rewrite app_nil_r in Es. rewrite Es in *.
      rewrite (strptime_token _ Tk).
      destruct (valid (token_datetime tok)) eqn:V; [|reflexivity].
      exfalso. apply Not. now split.
    + rewrite Es. now rewrite (strptime_trailing tok (c :: rest) Tk).
Qed.

Lemma snapshot_ok_iff_bare_valid_token_witness :
  tmutil_listlocalsnapshotdates sample_host
  = inr (lit "2025-09-30-012615" ++ nl ++ lit "2025-09-30-022615" ++ nl)
  /\ split "010" (lit "2025-09-30-012615" ++ nl ++ lit "2025-09-30-022615" ++ nl)
     = [lit "2025-09-30-012615"] ++ lit "2025-09-30-022615" :: [[]]
  /\ token_prefixed (lit "2025-09-30-022615")
  /\ (forall l, In l [[]] -> ~ token_prefixed l)
  /\ is_token (strip (lit "2025-09-30-022615"))
  /\ valid (token_datetime (strip (lit "2025-09-30-022615"))) = true
  /\ _get_latest_snapshot_age sample_host [] (datetime_now sample_host) =
       ([ServiceCheck (lit "helloworld2.timemachine.latest_snapshot") OK None []],
        2025).
Proof.
  assert (Tk : is_token (strip (lit "2025-09-30-022615")))
    by (apply is_token_by_match; vm_compute; reflexivity).
  assert (T : token_prefixed (lit "2025-09-30-022615"))
    by (apply keeps_token_prefixed; vm_compute; reflexivity).
  assert (N : forall l : str, In l [[]] -> ~ token_prefixed l).
  { intros l [<-|[]] K. apply keeps_token_prefixed in K. discriminate K. }
  split; [reflexivity|]. split; [reflexivity|]. split; [exact T|].
  split; [exact N|]. split; [exact Tk|]. split; [reflexivity|].
  rewrite (proj1 (snapshot_ok_iff_bare_valid_token sample_host []
                    (datetime_now sample_host) _
                    [lit "2025-09-30-012615"] (lit "2025-09-30-022615") [[]]
                    eq_refl eq_refl T N) (conj Tk eq_refl)).
  vm_compute. reflexivity.
Defined.

(** X7. For any two valid instants with the clock at or after the
    timestamp, the age is the number of whole seconds elapsed or that
    number plus one: the rounding of the quotient never adds more than a
    second and never takes any away. *)
Theorem age_within_one_second (now t : datetime) :
  valid now = true -> valid t = true -> micros t <= micros now ->
  floor_seconds now t <= age_seconds now t <= floor_seconds now t + 1.
Proof.
  intros Vn Vt Le.
  pose proof (micros_bounds now Vn) as Bn. pose proof (micros_bounds t Vt) as Bt.
  assert (R : 0 <= micros now - micros t < 2 ^ 52 * 1000000).
  { change (2 ^ 52) with 4503599627370496. lia. }
  pose proof (trunc_true_divide_near _ R) as Near.
  unfold age_seconds, floor_seconds, total_seconds. cbv zeta.
  rewrite total_microseconds_sub.
  pose proof (Z.div_pos (micros now - micros t) 1000000 ltac:(lia) ltac:(lia)).
  destruct (Z.ltb_spec (trunc (true_divide (micros now - micros t) 1000000)) 0);
    lia.
Qed.

Lemma age_within_one_second_witness :
  valid (mk_datetime 2025 1 1 0 0 0 999999) = true
  /\ valid (mk_datetime 1400 1 1 0 0 0 0) = true
  /\ micros (mk_datetime 1400 1 1 0 0 0 0)
     <= micros (mk_datetime 2025 1 1 0 0 0 999999)
  /\ floor_seconds (mk_datetime 2025 1 1 0 0 0 999999) (mk_datetime 1400 1 1 0 0 0 0)
     <= age_seconds (mk_datetime 2025 1 1 0 0 0 999999) (mk_datetime 1400 1 1 0 0 0 0)
     <= floor_seconds (mk_datetime 2025 1 1 0 0 0 999999)
          (mk_datetime 1400 1 1 0 0 0 0) + 1.
Proof.
  assert (L : micros (mk_datetime 1400 1 1 0 0 0 0)
              <= micros (mk_datetime 2025 1 1 0 0 0 999999))
    by (vm_compute; discriminate).
  split; [reflexivity|]. split; [reflexivity|]. split; [exact L|].
  exact (age_within_one_second (mk_datetime 2025 1 1 0 0 0 999999)
           (mk_datetime 1400 1 1 0 0 0 0) eq_refl eq_refl L).
Defined.

(** X8. Below [2^34] seconds the age never decreases when the span from
    the timestamp to the clock grows: a later clock, or an older
    timestamp, gives an age at least as large. *)
Theorem age_monotone_within_span (now1 t1 now2 t2 : datetime) :
  micros now1 - micros t1 <= micros now2 - micros t2 ->
  micros now2 - micros t2 < EXACT_SPAN ->
  age_seconds now1 t1 <= age_seconds now2 t2.
Proof.
  intros Le Lt.
  destruct (Z.lt_ge_cases (micros now1) (micros t1)) as [Neg|Pos].
  - rewrite (age_seconds_skew now1 t1 Neg). apply age_seconds_nonneg.
  - rewrite (age_seconds_exact now1 t1) by lia.
    rewrite (age_seconds_exact now2 t2) by lia.
    unfold floor_seconds. apply Z.div_le_mono; lia.
Qed.

Lemma age_monotone_within_span_witness :
  micros (mk_datetime 2025 9 30 3 0 0 250000) - micros (mk_datetime 2025 9 30 2 26 15 0)
  <= micros (mk_datetime 2025 9 30 3 0 0 250000) - micros (mk_datetime 2025 9 30 1 26 15 0)
  /\ micros (mk_datetime 2025 9 30 3 0 0 250000) - micros (mk_datetime 2025 9 30 1 26 15 0)
     < EXACT_SPAN
  /\ age_seconds (mk_datetime 2025 9 30 3 0 0 250000) (mk_datetime 2025 9 30 2 26 15 0)
     <= age_seconds (mk_datetime 2025 9 30 3 0 0 250000) (mk_datetime 2025 9 30 1 26 15 0).
Proof.
  assert (L : micros (mk_datetime 2025 9 30 3 0 0 250000)
              - micros (mk_datetime 2025 9 30 2 26 15 0)
              <= micros (mk_datetime 2025 9 30 3 0 0 250000)
                 - micros (mk_datetime 2025 9 30 1 26 15 0))
    by (vm_compute; discriminate).
  assert (S : micros (mk_datetime 2025 9 30 3 0 0 250000)
              - micros (mk_datetime 2025 9 30 1 26 15 0) < EXACT_SPAN)
    by (vm_compute; reflexivity).
  split; [exact L|]. split; [exact S|].
  exact (age_monotone_within_span _ _ _ _ L S).
Defined.

(** X9. A configured mountpoint that contains a line boundary (a line
    feed left at its end, say) is never found in the mount table: when
    the table can be read the check sends the gauge 0 and CRITICAL,
    whatever the table and the directory test say. *)
Theorem mountpoint_with_linebreak_never_mounted
    (h : host) (i : instance) (out : str) :
  mount_p h = inr out ->
  (exists c, In c (mountpoint_of i) /\ is_linebreak c = true) ->
  TimeMachineMountCheck.check h i =
    [Gauge (lit "timemachine.disk_mounted") 0 (TimeMachineMountCheck.tags_of i);
     ServiceCheck (lit "timemachine.disk.mounted") CRITICAL
       (Some (lit "Time Machine disk is NOT mounted"))
       (TimeMachineMountCheck.tags_of i)].
Proof.
  intros O (c & Hc & Bc).
  assert (Z0 : scan_lines (mountpoint_of i) (splitlines out) = 0).
  { destruct (scan_lines_values (mountpoint_of i) (splitlines out)) as [V|V];
      [|exact V].
    exfalso. apply scan_lines_spec in V.
    destruct V as (line & Hin & pre & post & E & _).
    pose proof (splitlines_no_linebreak out line Hin) as N.
    unfold no_linebreak in N. rewrite E in N.
    apply Forall_app in N. destruct N as [_ N].
    apply Forall_app in N. destruct N as [N _].
    rewrite Forall_forall in N. specialize (N c Hc). congruence. }
  unfold TimeMachineMountCheck.check. rewrite O. cbn [bind ret]. rewrite Z0.
  now destruct (isdir h (mountpoint_of i)).
Qed.

Lemma mountpoint_with_linebreak_never_mounted_witness :
  mount_p sample_host
  = inr (lit "/dev/disk2 on /Volumes/SEAGATE TIME MACHINE 5T (apfs)" ++ nl)
  /\ (exists c, In c (mountpoint_of broken_line_instance)
                /\ is_linebreak c = true)
  /\ TimeMachineMountCheck.check sample_host broken_line_instance =
       [Gauge (lit "timemachine.disk_mounted") 0
          (TimeMachineMountCheck.tags_of broken_line_instance);
        ServiceCheck (lit "timemachine.disk.mounted") CRITICAL
          (Some (lit "Time Machine disk is NOT mounted"))
          (TimeMachineMountCheck.tags_of broken_line_instance)].
Proof.
  assert (B : exists c, In c (mountpoint_of broken_line_instance)
                        /\ is_linebreak c = true).
  { exists "010"%char. split; [|reflexivity].
    apply in_or_app. right. now left. }
  split; [reflexivity|]. split; [exact B|].
  exact (mountpoint_with_linebreak_never_mounted sample_host broken_line_instance
           _ eq_refl B).
Defined.

(** X10. For a mount table given as lines that each end with LF, or each
    with CR LF, the gauge is 1 exactly when the mountpoint is a directory
    and one of those lines has the mountpoint between blanks or line
    ends: the two line endings give the same verdict. *)
Theorem mount_table_line_ends
    (h : host) (i : instance) (eol : str) (ls : list str) :
  mount_p h = inr (unlines eol ls) ->
  eol = nl \/ eol = crlf ->
  Forall no_linebreak ls ->
  exists mounted,
    TimeMachineMountCheck.check h i =
      [Gauge (lit "timemachine.disk_mounted") mounted
         (TimeMachineMountCheck.tags_of i);
       ServiceCheck (lit "timemachine.disk.mounted")
         (if mounted =? 1 then OK else CRITICAL)
         (Some (if mounted =? 1 then lit "Time Machine disk is mounted"
                else lit "Time Machine disk is NOT mounted"))
         (TimeMachineMountCheck.tags_of i)]
    /\ (mounted = 1 <->
        isdir h (mountpoint_of i) = true
        /\ exists line, In line ls /\ delimited_by is_blank (mountpoint_of i) line).
Proof.
  intros O Heol N. unfold TimeMachineMountCheck.check. rewrite O. cbn [bind ret].
  rewrite (splitlines_unlines eol ls Heol N).
  pose proof (scan_lines_spec (mountpoint_of i) ls) as S.
  destruct (scan_lines_values (mountpoint_of i) ls) as [V|V];
    rewrite V in *; destruct (isdir h (mountpoint_of i)); cbn [andb negb Z.eqb].
  - exists 1. split; [reflexivity|]. split; [|reflexivity].
    intros _. split; [reflexivity|]. now apply S.
  - exists 0. split; [reflexivity|]. split; [discriminate|].
    intros [F _]. discriminate.
  - exists 0. split; [reflexivity|]. split; [discriminate|].
    intros [_ F]. apply S in F. discriminate.
  - exists 0. split; [reflexivity|]. split; [discriminate|].
    intros [F _]. discriminate.
Qed.

Lemma mount_table_line_ends_witness :
  mount_p headers_only_host
  = inr (unlines crlf
           [lit "/dev/disk1s1 on / (apfs)";
            lit "/dev/disk2 on /Volumes/SEAGATE TIME MACHINE 5T (apfs)"])
  /\ (crlf = nl \/ crlf = crlf)
  /\ Forall no_linebreak
       [lit "/dev/disk1s1 on / (apfs)";
        lit "/dev/disk2 on /Volumes/SEAGATE TIME MACHINE 5T (apfs)"]
  /\ exists mounted,
       TimeMachineMountCheck.check headers_only_host default_instance =
         [Gauge (lit "timemachine.disk_mounted") mounted
            (TimeMachineMountCheck.tags_of default_instance);
          ServiceCheck (lit "timemachine.disk.mounted")
            (if mounted =? 1 then OK else CRITICAL)
            (Some (if mounted =? 1 then lit "Time Machine disk is mounted"
                   else lit "Time Machine disk is NOT mounted"))
            (TimeMachineMountCheck.tags_of default_instance)]
       /\ (mounted = 1 <->
           isdir headers_only_host (mountpoint_of default_instance) = true
           /\ exists line,
               In line [lit "/dev/disk1s1 on / (apfs)";
                        lit "/dev/disk2 on /Volumes/SEAGATE TIME MACHINE 5T (apfs)"]
               /\ delimited_by is_blank (mountpoint_of default_instance) line).
Proof.
  assert (N : Forall no_linebreak
                [lit "/dev/disk1s1 on / (apfs)";
                 lit "/dev/disk2 on /Volumes/SEAGATE TIME MACHINE 5T (apfs)"]).
  { repeat constructor. }
  split; [reflexivity|]. split; [now right|]. split; [exact N|].
  exact (mount_table_line_ends headers_only_host default_instance crlf _
           eq_refl (or_intror eq_refl) N).
Defined.

(** With CR LF line ends the disk of the sample table is found. *)
Example mounted_with_crlf_table :
  TimeMachineMountCheck.check headers_only_host default_instance =
    [Gauge (lit "timemachine.disk_mounted") 1
       [lit "mountpoint:/Volumes/SEAGATE TIME MACHINE 5T"];
     ServiceCheck (lit "timemachine.disk.mounted") OK
       (Some (lit "Time Machine disk is mounted"))
       [lit "mountpoint:/Volumes/SEAGATE TIME MACHINE 5T"]].
Proof. vm_compute. reflexivity. Qed.
